(** * Rocket-sim: the flight simulation core of [rocket_tool.py]

    A shallow embedding of [interp_thrust], [check_conditions],
    [run_events] and [simulate_flight], and the properties of the
    simulation-and-event core that hold (or fail) on that code.

    Numbers.  The main model computes with exact rationals ([Q]):
    decimal literals denote the decimal they spell, arithmetic does not
    round, and the arithmetic failure kept is [ZeroDivisionError].
    Python computes in binary64, where results are rounded, a result out
    of range becomes an infinity (and later a NaN, on which every
    comparison is false) and [velocity ** 2] out of range raises
    [OverflowError].  In the exact model a run with a non-zero mass on a
    proper thrust curve always returns, after 6001 passes; in binary64
    it may raise or leave the loop early, and reaches the cutoff after
    6000 passes.  The statements about all configurations are therefore
    made about the runs that return and assert the expressions the code
    evaluates, the comparisons it makes and the order of its steps, not
    the exact value of a rounded result.  Where the arithmetic of the
    code itself decides (a rounded thrust, an overflow, a loop left on a
    NaN), the functions are given a second time on binary64 numbers
    (module [Binary64]) and evaluated or reasoned about there.

    Objects.  The event dicts live in a store addressed by references;
    a Python list of events is a list of references into that store, so
    that [config.events.copy()] copies references and not dicts. *)

From Stdlib Require Import QArith Lqa Lia Bool PrimFloat.
From stdpp Require Import base list strings.

Open Scope Q_scope.

(** ** Exceptions and fallible results *)

Inductive exn : Type :=
  | ZeroDivisionError
  | OverflowError.

Inductive result (A : Type) : Type :=
  | Ok (a : A)
  | Raise (e : exn).

Arguments Ok {A} a.
Arguments Raise {A} e.

Definition bind {A B : Type} (r : result A) (k : A -> result B) : result B :=
  match r with
  | Ok a => k a
  | Raise e => Raise e
  end.

Notation "'let*' x ':=' r 'in' k" := (bind r (fun x => k))
  (at level 10, x name, r at level 100, k at level 200).

(** Python's [a / b]: raises on a zero divisor. *)
Definition py_div (a b : Q) : result Q :=
  if Qeq_bool b 0 then Raise ZeroDivisionError else Ok (a / b).

Definition Qltb (a b : Q) : bool := negb (Qle_bool b a).

(** ** Thrust curves *)

(** A control point [(time, thrust)], and a curve of them. *)
Abbreviation control_point := (Q * Q)%type (only parsing).
Abbreviation curve := (list (Q * Q)) (only parsing).

(** The [for i in range(len(thrust_curve)-1)] scan of [interp_thrust]:
    the first segment with [t0 <= t <= t1] decides; [None] when the scan
    falls through. *)
Fixpoint interp_scan (c : curve) (t : Q) : option (result Q) :=
  match c with
  | (t0, thrust0) :: (((t1, thrust1) :: _) as rest) =>
      if Qle_bool t0 t && Qle_bool t t1
      then Some (let* q := py_div ((thrust1 - thrust0) * (t - t0)) (t1 - t0) in
                 Ok (thrust0 + q))
      else interp_scan rest t
  | _ => None
  end.

Definition interp_thrust (thrust_curve : curve) (t : Q) : result Q :=
  if (length thrust_curve <? 2)%nat then Ok 0
  else
    match interp_scan thrust_curve t with
    | Some r => r
    | None =>
        if Qltb (List.last thrust_curve (0, 0)).1 t then Ok 0
        else Ok (List.hd (0, 0) thrust_curve).2
    end.

(** ** Physics constants *)

Definition GRAVITY : Q := 9.81.
Definition AIR_DENSITY : Q := 1.225.

(** [math.pi], the binary64 constant 0x1.921fb54442d18p+1, as the
    rational it denotes. *)
Definition math_pi : Q := 884279719003555 # 281474976710656.

(** ** Flight state, events and the event store *)

(** The dict [{"time", "altitude", "velocity", "acceleration"}]; the
    same four fields are the sample appended to [data]. *)
Record flight_state : Type := FlightState {
  time : Q;
  altitude : Q;
  velocity : Q;
  acceleration : Q
}.

(** An event dict.  [ev_condition] is [ev.get("condition", {})] as its
    list of items, [ev_triggered] is [ev.get("_triggered", False)]. *)
Record event : Type := Event {
  ev_time : Q;
  ev_type : string;
  ev_condition : list (string * Q);
  ev_triggered : bool
}.

(** References to event dicts, and the store they point into. *)
Abbreviation loc := nat (only parsing).
Abbreviation store := (list event) (only parsing).

(** [ev["_triggered"] = True] *)
Definition set_triggered (ev : event) : event :=
  {| ev_time := ev_time ev; ev_type := ev_type ev;
     ev_condition := ev_condition ev; ev_triggered := true |}.

(** One item of [conditions.items()]: does it make [check_conditions]
    return [False]?  A key that is none of the four is skipped. *)
Definition condition_fails (cond : string) (val : Q) (state : flight_state) : bool :=
  (String.eqb cond "altitude_gt" && Qle_bool (altitude state) val)
  || (String.eqb cond "altitude_lt" && Qle_bool val (altitude state))
  || (String.eqb cond "time_gt" && Qle_bool (time state) val)
  || (String.eqb cond "time_lt" && Qle_bool val (time state)).

Fixpoint check_conditions (conditions : list (string * Q)) (state : flight_state) : bool :=
  match conditions with
  | [] => true
  | (cond, val) :: rest =>
      if condition_fails cond val state then false
      else check_conditions rest state
  end.


(** The guard of [run_events] for one event dict. *)
Definition fires (ev : event) (state : flight_state) : bool :=
  negb (ev_triggered ev) && Qle_bool (ev_time ev) (time state)
  && check_conditions (ev_condition ev) state.

(** The [for ev in events] loop of [run_events]; [triggered] is the list
    built so far, [s] the store holding the dicts.  A reference always
    points to a live dict in Python; a dangling one is skipped here. *)
Fixpoint run_events_from (events : list loc) (state : flight_state)
    (s : store) (triggered : list loc) : list loc * store :=
  match events with
  | [] => (triggered, s)
  | ev :: rest =>
      match s !! ev with
      | Some d =>
          if fires d state
          then run_events_from rest state (<[ev := set_triggered d]> s) (triggered ++ [ev])
          else run_events_from rest state s triggered
      | None => run_events_from rest state s triggered
      end
  end.

Definition run_events (events : list loc) (state : flight_state) (s : store)
    : list loc * store :=
  run_events_from events state s [].

(** ** Mission configuration *)

(** [motor_params]: the two keys [simulate_flight] reads, each possibly
    absent (the "Custom" preset is the empty dict). *)
Record motor_params_t : Type := MotorParams {
  mp_mass : option Q;
  mp_thrust_curve : option curve
}.

Record MissionConfig : Type := Config {
  name : string;
  rocket_mass : Q;
  rocket_diameter : Q;
  drag_coefficient : Q;
  motor_params : motor_params_t;
  payload_mass : Q;
  events : list loc
}.

(** ** The simulation loop *)

Definition dt : Q := 0.05.

(** The variables live across iterations of the [while] loop, the store
    of event dicts, and the "Event triggered at ..." lines printed so
    far, each kept as the time and the event it names. *)
Record loop_state : Type := LoopState {
  ls_t : Q;
  ls_velocity : Q;
  ls_altitude : Q;
  ls_data : list flight_state;
  ls_store : store;
  ls_printed : list (Q * loc)
}.

Definition drag_force (drag_coeff area velocity : Q) : Q :=
  0.5 * AIR_DENSITY * velocity ^ 2 * drag_coeff * area
  * (if Qltb 0 velocity then 1 else -1).

Section Loop.

Variables (mass area drag_coeff : Q) (thrust_curve : curve) (evs : list loc).

(** One pass through the body of [while altitude >= 0], up to and
    including [data.append]. *)
Definition loop_body (st : loop_state) : result loop_state :=
  let* thrust := interp_thrust thrust_curve (ls_t st) in
  let drag := drag_force drag_coeff area (ls_velocity st) in
  let* accel := py_div (thrust - drag - mass * GRAVITY) mass in
  let velocity := ls_velocity st + accel * dt in
  let altitude := ls_altitude st + velocity * dt in
  let altitude := if Qltb altitude 0 then 0 else altitude in
  let t := ls_t st + dt in
  let state := {| time := t; altitude := altitude; velocity := velocity;
                  acceleration := accel |} in
  let '(triggered_events, s) := run_events evs state (ls_store st) in
  Ok {| ls_t := t; ls_velocity := velocity; ls_altitude := altitude;
        ls_data := ls_data st ++ [state];
        ls_store := s;
        ls_printed := ls_printed st ++ map (fun ev => (t, ev)) triggered_events |}.

(** The [while] loop.  [fuel] bounds the number of iterations the model
    may run ([None] when it is used up).  The boolean of a normal exit
    tells whether the loop was left through [break] (the timeout
    message having been printed) or through its condition. *)
Fixpoint flight_loop (fuel : nat) (st : loop_state) : option (result (loop_state * bool)) :=
  match fuel with
  | O => None
  | S fuel' =>
      if Qle_bool 0 (ls_altitude st) then
        match loop_body st with
        | Raise e => Some (Raise e)
        | Ok st' =>
            if Qltb 300 (ls_t st') then Some (Ok (st', true))
            else flight_loop fuel' st'
        end
      else Some (Ok (st, false))
  end.

(** [n] passes through the body, as long as none raises. *)
Fixpoint iterate_body (n : nat) (st : loop_state) : result loop_state :=
  match n with
  | O => Ok st
  | S n' => let* st' := loop_body st in iterate_body n' st'
  end.

End Loop.

(** The value of [t] after [n] additions of [dt]. *)
Definition steps_time (n : nat) : Q := inject_Z (Z.of_nat n) * dt.

(** The number of iterations after which [t > 300] first holds. *)
Definition cutoff_steps : nat := Z.to_nat 6001.

(** What a call of [simulate_flight] leaves behind: the returned [data],
    the store of event dicts as the caller finds it afterwards, the event
    lines printed, and whether the timeout message was printed. *)
Record flight_output : Type := FlightOutput {
  out_data : list flight_state;
  out_store : store;
  out_printed : list (Q * loc);
  out_timeout : bool
}.

Definition output_of (st : loop_state) (timed_out : bool) : flight_output :=
  {| out_data := ls_data st; out_store := ls_store st;
     out_printed := ls_printed st; out_timeout := timed_out |}.

Definition effective_mass (config : MissionConfig) : Q :=
  rocket_mass config + default 0 (mp_mass (motor_params config)) + payload_mass config.

Definition frontal_area (config : MissionConfig) : Q :=
  let radius := rocket_diameter config / 2 in
  math_pi * radius ^ 2.

Definition config_curve (config : MissionConfig) : curve :=
  default [] (mp_thrust_curve (motor_params config)).

Definition initial_state (s : store) : loop_state :=
  {| ls_t := 0; ls_velocity := 0; ls_altitude := 0; ls_data := [];
     ls_store := s; ls_printed := [] |}.

(** [simulate_flight config], run on the store [s].  [events =
    config.events.copy()] is a new list of the same references. *)
Definition simulate_flight (fuel : nat) (config : MissionConfig) (s : store)
    : option (result flight_output) :=
  let mass := effective_mass config in
  let area := frontal_area config in
  let drag_coeff := drag_coefficient config in
  let thrust_curve := config_curve config in
  let evs := events config in
  match flight_loop mass area drag_coeff thrust_curve evs fuel (initial_state s) with
  | None => None
  | Some (Raise e) => Some (Raise e)
  | Some (Ok (st, timed_out)) => Some (Ok (output_of st timed_out))
  end.

(** The passes of the loop of [simulate_flight config], from the initial
    state on the store [s]. *)
Definition flight_passes (n : nat) (config : MissionConfig) (s : store)
    : result loop_state :=
  iterate_body (effective_mass config) (frontal_area config)
    (drag_coefficient config) (config_curve config) (events config) n
    (initial_state s).

(** The variable [t] alone, in binary64 as Python computes it: [t +=
    dt] until [t > 300], counting the passes.  It is the one place where
    the rounding the rest of this file leaves out changes a count. *)
Fixpoint binary64_passes (fuel : nat) (t : float) (passes : Z) : option Z :=
  match fuel with
  | O => None
  | S fuel' =>
      let t' := PrimFloat.add t 0x1.999999999999ap-5%float in
      if PrimFloat.ltb 300%float t' then Some (passes + 1)%Z
      else binary64_passes fuel' t' (passes + 1)%Z
  end.

(** ** The same functions in binary64

    [interp_thrust] and the trajectory part of [simulate_flight] once
    more, on binary64 numbers with the operations of Python's [float]:
    results are rounded to nearest, a division by zero raises, other
    results out of range are infinities, comparisons with a NaN are
    false.  Integer literals of the source ([0], [1], [-1], [12]) are the
    floats of the same value.  The events are left out: they do not
    act on the trajectory. *)
Module Binary64.

Local Open Scope float_scope.

(** [a / b] *)
Definition py_div (a b : float) : result float :=
  if PrimFloat.eqb b 0 then Raise ZeroDivisionError else Ok (a / b).

(** [x ** 2]: Python raises [OverflowError] when the power of a finite
    number is out of range; the power itself is taken as the rounded
    product. *)
Definition py_square (x : float) : result float :=
  let y := x * x in
  if is_infinity y && negb (is_infinity x) then Raise OverflowError else Ok y.

Fixpoint interp_scan (c : list (float * float)) (t : float) : option (result float) :=
  match c with
  | (t0, thrust0) :: (((t1, thrust1) :: _) as rest) =>
      if PrimFloat.leb t0 t && PrimFloat.leb t t1
      then Some (let* q := py_div ((thrust1 - thrust0) * (t - t0)) (t1 - t0) in
                 Ok (thrust0 + q))
      else interp_scan rest t
  | _ => None
  end.

Definition interp_thrust (thrust_curve : list (float * float)) (t : float) : result float :=
  if (length thrust_curve <? 2)%nat then Ok 0
  else
    match interp_scan thrust_curve t with
    | Some r => r
    | None =>
        if PrimFloat.ltb (List.last thrust_curve (0, 0)).1 t then Ok 0
        else Ok (List.hd (0, 0) thrust_curve).2
    end.

(** 9.81, 1.225, [math.pi] and 0.05 *)
Definition GRAVITY : float := 0x1.39eb851eb851fp+3.
Definition AIR_DENSITY : float := 0x1.399999999999ap+0.
Definition math_pi : float := 0x1.921fb54442d18p+1.
Definition dt : float := 0x1.999999999999ap-5.

Record flight_state : Type := FlightState {
  time : float;
  altitude : float;
  velocity : float;
  acceleration : float
}.

(** One pass through the body of the loop, from the loop variables
    [t], [velocity] and [altitude] to the sample it appends. *)
Definition loop_body (mass area drag_coeff : float) (thrust_curve : list (float * float))
    (t velocity altitude : float) : result flight_state :=
  let* thrust := interp_thrust thrust_curve t in
  let* square := py_square velocity in
  let drag := 0.5 * AIR_DENSITY * square * drag_coeff * area
              * (if PrimFloat.ltb 0 velocity then 1 else -1) in
  let* accel := py_div (thrust - drag - mass * GRAVITY) mass in
  let velocity := velocity + accel * dt in
  let altitude := altitude + velocity * dt in
  let altitude := if PrimFloat.ltb altitude 0 then 0 else altitude in
  let t := t + dt in
  Ok {| time := t; altitude := altitude; velocity := velocity; acceleration := accel |}.

(** The [while altitude >= 0] loop; the boolean tells whether it was
    left through [break]. *)
Fixpoint flight_loop (fuel : nat) (mass area drag_coeff : float)
    (thrust_curve : list (float * float)) (t velocity altitude : float)
    (data : list flight_state) : option (result (list flight_state * bool)) :=
  match fuel with
  | O => None
  | S fuel' =>
      if PrimFloat.leb 0 altitude then
        match loop_body mass area drag_coeff thrust_curve t velocity altitude with
        | Raise e => Some (Raise e)
        | Ok state =>
            if PrimFloat.ltb 300 (time state) then Some (Ok (data ++ [state], true))
            else flight_loop fuel' mass area drag_coeff thrust_curve
                   (time state) (Binary64.velocity state) (Binary64.altitude state)
                   (data ++ [state])
        end
      else Some (Ok (data, false))
  end.

(** [simulate_flight] on the numbers of a configuration; [motor_mass]
    is [motor.get("mass", 0)]. *)
Definition simulate_flight (fuel : nat)
    (rocket_mass rocket_diameter drag_coefficient motor_mass payload_mass : float)
    (thrust_curve : list (float * float)) : option (result (list flight_state * bool)) :=
  let mass := rocket_mass + motor_mass + payload_mass in
  let radius := rocket_diameter / 2 in
  match py_square radius with
  | Raise e => Some (Raise e)
  | Ok square =>
      let area := math_pi * square in
      flight_loop fuel mass area drag_coefficient thrust_curve 0 0 0 []
  end.

(** How a run ended: the number of samples it returned and whether the
    timeout message was printed, or what it raised. *)
Definition outcome (r : option (result (list flight_state * bool)))
    : option (result (Z * bool)) :=
  match r with
  | None => None
  | Some (Raise e) => Some (Raise e)
  | Some (Ok (data, timed_out)) => Some (Ok (Z.of_nat (length data), timed_out))
  end.

(** The thrust curve [(0, 12), (1.6, 0)] of the "Estes D12" preset. *)
Definition D12 : list (float * float) := [(0, 12); (0x1.999999999999ap+0, 0)].

End Binary64.

(** ** Concrete missions *)

(** The end-to-end scenario: 0.5 kg, 0.05 m, Cd 0.75, a 12 N motor
    burning out linearly over 1.6 s. *)
Definition scenario : MissionConfig :=
  {| name := "scenario"; rocket_mass := 0.5; rocket_diameter := 0.05;
     drag_coefficient := 0.75;
     motor_params := {| mp_mass := None;
                        mp_thrust_curve := Some [(0, 12); (1.6, 0)] |};
     payload_mass := 0; events := [] |}.

(** A short hop: 1 kg pushed by 20 N for one step. *)
Definition hop : MissionConfig :=
  {| name := "hop"; rocket_mass := 1; rocket_diameter := 0.05;
     drag_coefficient := 0.75;
     motor_params := {| mp_mass := None;
                        mp_thrust_curve := Some [(0, 20); (0.05, 0)] |};
     payload_mass := 0; events := [] |}.


(** The scenario on a rocket without mass. *)
Definition massless : MissionConfig :=
  {| name := "massless"; rocket_mass := 0; rocket_diameter := 0.05;
     drag_coefficient := 0.75;
     motor_params := {| mp_mass := None;
                        mp_thrust_curve := Some [(0, 12); (1.6, 0)] |};
     payload_mass := 0; events := [] |}.

(** The scenario on a thrust curve with two control points at time 0. *)
Definition stuttering : MissionConfig :=
  {| name := "stuttering"; rocket_mass := 0.5; rocket_diameter := 0.05;
     drag_coefficient := 0.75;
     motor_params := {| mp_mass := None;
                        mp_thrust_curve := Some [(0, 5); (0, 3)] |};
     payload_mass := 0; events := [] |}.

(** An unconditional event due at time 0, and the scenario scripted
    with it: its only event is the dict at reference 0. *)
Definition deploy : event :=
  {| ev_time := 0; ev_type := "deploy_parachute"; ev_condition := [];
     ev_triggered := false |}.

Definition scripted : MissionConfig :=
  {| name := "scripted"; rocket_mass := 0.5; rocket_diameter := 0.05;
     drag_coefficient := 0.75;
     motor_params := {| mp_mass := None;
                        mp_thrust_curve := Some [(0, 12); (1.6, 0)] |};
     payload_mass := 0; events := [0%nat] |}.

(** A state one second into a flight, ten metres up. *)
Definition aloft : flight_state :=
  {| time := 1; altitude := 10; velocity := 3; acceleration := 0 |}.

(** ** Shapes of thrust curves *)

(** Control-point times strictly increasing. *)
Fixpoint times_increasing (c : curve) : Prop :=
  match c with
  | p :: ((q :: _) as rest) => p.1 < q.1 /\ times_increasing rest
  | _ => True
  end.

(** Control-point times non-decreasing. *)
Fixpoint times_nondecreasing (c : curve) : Prop :=
  match c with
  | p :: ((q :: _) as rest) => p.1 <= q.1 /\ times_nondecreasing rest
  | _ => True
  end.

(** No two consecutive control points at the same time. *)
Fixpoint no_flat_segment (c : curve) : Prop :=
  match c with
  | p :: ((q :: _) as rest) => ~ p.1 == q.1 /\ no_flat_segment rest
  | _ => True
  end.

(** ** Around the simulation *)

(** The time and the condition of an event, without its flag: what
    [run_events] asks of the state beyond "not fired yet". *)
Definition due (ev : event) (state : flight_state) : bool :=
  Qle_bool (ev_time ev) (time state) && check_conditions (ev_condition ev) state.

(** [config.events = evs], the other attributes kept. *)
Definition with_events (config : MissionConfig) (evs : list loc) : MissionConfig :=
  {| name := name config; rocket_mass := rocket_mass config;
     rocket_diameter := rocket_diameter config;
     drag_coefficient := drag_coefficient config;
     motor_params := motor_params config;
     payload_mass := payload_mass config; events := evs |}.

(** The factor of [velocity ** 2] in the drag. *)
Definition drag_factor (drag_coeff area : Q) : Q :=
  0.5 * AIR_DENSITY * drag_coeff * area.

(** [MOTOR_PRESETS], in the order of its keys. *)
Definition MOTOR_PRESETS : list (string * motor_params_t) :=
  [("Estes D12", {| mp_mass := Some 0.024;
                    mp_thrust_curve := Some [(0, 12); (1.6, 0)] |});
   ("Estes E9", {| mp_mass := Some 0.021;
                   mp_thrust_curve := Some [(0, 9); (1.2, 0)] |});
   ("Custom", {| mp_mass := None; mp_thrust_curve := None |})].

(** [MOTOR_PRESETS[key]]; [None] is Python's [KeyError],
    [MOTOR_PRESETS.get(key, {})] its default. *)
Fixpoint preset (presets : list (string * motor_params_t)) (key : string)
    : option motor_params_t :=
  match presets with
  | [] => None
  | (k, v) :: rest => if String.eqb k key then Some v else preset rest key
  end.

(** [MissionConfig()], as [__init__] fills it. *)
Definition default_config : MissionConfig :=
  {| name := "NewMission"; rocket_mass := 0.5; rocket_diameter := 0.05;
     drag_coefficient := 0.75;
     motor_params := default {| mp_mass := None; mp_thrust_curve := None |}
                       (preset MOTOR_PRESETS "Custom");
     payload_mass := 0; events := [] |}.

(** Python's [l[i]] on a list: a negative index counts from the end;
    [None] is [IndexError]. *)
Definition py_getitem {A : Type} (l : list A) (i : Z) : option A :=
  let n := Z.of_nat (length l) in
  if (0 <=? i)%Z then l !! Z.to_nat i
  else if (- n <=? i)%Z then l !! Z.to_nat (n + i)
  else None.

(** The motor choice of [plan_mission]: [int(choice)] is [None] when it
    raises; whatever is raised in the [try] selects "Custom". *)
Definition choose_motor (choice : option Z) : string * motor_params_t :=
  let custom :=
    ("Custom"%string,
     default {| mp_mass := None; mp_thrust_curve := None |}
       (preset MOTOR_PRESETS "Custom")) in
  match choice with
  | None => custom
  | Some c =>
      match py_getitem MOTOR_PRESETS.*1 (c - 1) with
      | None => custom
      | Some selected =>
          match preset MOTOR_PRESETS selected with
          | None => custom
          | Some params => (selected, params)
          end
      end
  end.

(** The motor [plan_mission] builds from the values typed in; of its
    keys, [simulate_flight] reads the mass and the curve. *)
Definition custom_motor (total_impulse burn_time avg_thrust motor_mass : Q)
    : motor_params_t :=
  {| mp_mass := Some motor_mass;
     mp_thrust_curve := Some [(0, avg_thrust); (burn_time, 0)] |}.

(** The rocket at rest on the pad, before the first pass. *)
Definition launch_pad : flight_state :=
  {| time := 0; altitude := 0; velocity := 0; acceleration := 0 |}.

(** [b] is the sample one pass makes of the sample [a]: the thrust is
    read at the time of [a], the drag at the velocity of [a]; the new
    velocity moves the altitude, which is held at the ground. *)
Definition follows (mass area drag_coeff : Q) (thrust_curve : curve)
    (a b : flight_state) : Prop :=
  exists thrust,
    interp_thrust thrust_curve (time a) = Ok thrust
    /\ acceleration b
       = (thrust - drag_force drag_coeff area (velocity a) - mass * GRAVITY) / mass
    /\ velocity b = velocity a + acceleration b * dt
    /\ altitude b
       = (if Qltb (altitude a + velocity b * dt) 0 then 0
          else altitude a + velocity b * dt)
    /\ time b = time a + dt.

(** The loop variables are the fields of the last sample, or those of
    the pad while there is none. *)
Definition tracks (st : loop_state) : Prop :=
  let state := default launch_pad (last (ls_data st)) in
  ls_t st = time state /\ ls_velocity st = velocity state
  /\ ls_altitude st = altitude state.

(** Two loop states with the same trajectory so far. *)
Definition same_flight (st1 st2 : loop_state) : Prop :=
  ls_t st1 = ls_t st2 /\ ls_velocity st1 = ls_velocity st2
  /\ ls_altitude st1 = ls_altitude st2 /\ ls_data st1 = ls_data st2.

(** The drag is tame for a mass at the speed limit [L]: either there is
    none, or the rocket falling at [L] is braked by at least its weight
    and one step of that braking changes its velocity by less than half
    of [L]. *)
Definition tame_drag (mass k L : Q) : Prop :=
  k == 0 \/ (0 <= L /\ mass * GRAVITY <= k * (L * L) /\ 2 * k * L * dt <= mass).

(** [t] is the time of the first sample of [data] at which the event
    [ev] is due. *)
Definition first_due (ev : event) (data : list flight_state) (t : Q) : Prop :=
  exists k state,
    data !! k = Some state /\ time state = t /\ due ev state = true
    /\ forall j earlier, (j < k)%nat -> data !! j = Some earlier ->
                         due ev earlier = false.

(** * Properties *)

(** ** Comparisons *)

Lemma Qle_bool_false (x y : Q) : Qle_bool x y = false <-> y < x.
Proof.
  split; intros H.
  - apply Qnot_le_lt. intros Hle. apply Qle_bool_iff in Hle. congruence.
  - destruct (Qle_bool x y) eqn:E; [|reflexivity].
    apply Qle_bool_iff in E. lra.
Qed.

Lemma Qltb_true (x y : Q) : Qltb x y = true <-> x < y.
Proof. unfold Qltb. rewrite negb_true_iff. apply Qle_bool_false. Qed.

Lemma Qltb_false (x y : Q) : Qltb x y = false <-> y <= x.
Proof. unfold Qltb. rewrite negb_false_iff. apply Qle_bool_iff. Qed.

Lemma Qeq_bool_false (x y : Q) : Qeq_bool x y = false <-> ~ x == y.
Proof.
  split; intros H.
  - now apply Qeq_bool_neq.
  - destruct (Qeq_bool x y) eqn:E; [|reflexivity].
    apply Qeq_bool_iff in E. contradiction.
Qed.

(** Turns the boolean tests of the goal and the context into
    propositions on [Q]. *)
Ltac qprop :=
  repeat match goal with
  | H : Qle_bool _ _ = true |- _ => apply Qle_bool_iff in H
  | H : Qle_bool _ _ = false |- _ => apply Qle_bool_false in H
  | H : Qltb _ _ = true |- _ => apply Qltb_true in H
  | H : Qltb _ _ = false |- _ => apply Qltb_false in H
  | H : Qeq_bool _ _ = true |- _ => apply Qeq_bool_iff in H
  | H : Qeq_bool _ _ = false |- _ => apply Qeq_bool_false in H
  | H : _ && _ = true |- _ => apply andb_true_iff in H; destruct H
  | |- Qle_bool _ _ = true => apply Qle_bool_iff
  | |- Qle_bool _ _ = false => apply Qle_bool_false
  | |- Qltb _ _ = true => apply Qltb_true
  | |- Qltb _ _ = false => apply Qltb_false
  | |- Qeq_bool _ _ = true => apply Qeq_bool_iff
  | |- Qeq_bool _ _ = false => apply Qeq_bool_false
  end.

Lemma py_div_ok (a b : Q) : ~ b == 0 -> py_div a b = Ok (a / b).
Proof. intros H. unfold py_div. apply Qeq_bool_false in H. now rewrite H. Qed.

Lemma py_div_zero (a b : Q) : b == 0 -> py_div a b = Raise ZeroDivisionError.
Proof. intros H. unfold py_div. apply Qeq_bool_iff in H. now rewrite H. Qed.

(** ** [interp_thrust] *)

Lemma increasing_nondecreasing (c : curve) :
  times_increasing c -> times_nondecreasing c.
Proof.
  induction c as [|p [|q rest] IH]; simpl; auto.
  intros [Hlt Hrest]. split; [lra | now apply IH].
Qed.

Lemma increasing_no_flat (c : curve) :
  times_increasing c -> no_flat_segment c.
Proof.
  induction c as [|p [|q rest] IH]; simpl; auto.
  intros [Hlt Hrest]. split; [lra | now apply IH].
Qed.

(** In a non-decreasing curve the first time is a lower bound. *)
Lemma nondecreasing_head_le (c : curve) (p q : control_point) :
  times_nondecreasing (p :: c) -> q ∈ c -> p.1 <= q.1.
Proof.
  revert p. induction c as [|r rest IH]; intros p Hs Hin.
  - inversion Hin.
  - destruct Hs as [Hle Hrest]. apply elem_of_cons in Hin as [->|Hin]; [exact Hle|].
    specialize (IH r Hrest Hin). lra.
Qed.

Lemma increasing_head_lt (c : curve) (p q : control_point) :
  times_increasing (p :: c) -> q ∈ c -> p.1 < q.1.
Proof.
  revert p. induction c as [|r rest IH]; intros p Hs Hin.
  - inversion Hin.
  - destruct Hs as [Hlt Hrest]. apply elem_of_cons in Hin as [->|Hin]; [exact Hlt|].
    specialize (IH r Hrest Hin). lra.
Qed.

(** The scan falls through when [t] lies before every control point. *)
Lemma interp_scan_before (c : curve) (t : Q) :
  (forall q, q ∈ c -> t < q.1) -> interp_scan c t = None.
Proof.
  induction c as [|[t0 th0] [|[t1 th1] rest] IH]; intros Hall; try reflexivity.
  cbn [interp_scan].
  assert (Ht0 : t < t0) by (apply (Hall (t0, th0)); left).
  apply Qle_bool_false in Ht0. rewrite Ht0. cbn [andb].
  apply IH. intros q Hq. apply Hall. now right.
Qed.

(** The scan falls through when [t] lies after every control point. *)
Lemma interp_scan_after (c : curve) (t : Q) :
  (forall q, q ∈ c -> q.1 < t) -> interp_scan c t = None.
Proof.
  induction c as [|[t0 th0] [|[t1 th1] rest] IH]; intros Hall; try reflexivity.
  cbn [interp_scan].
  assert (Ht1 : t1 < t) by (apply (Hall (t1, th1)); right; left).
  apply Qle_bool_false in Ht1. rewrite Ht1, andb_false_r.
  apply IH. intros q Hq. apply Hall. now right.
Qed.

(** A scan never raises on a curve without flat segment. *)
Lemma interp_scan_no_flat (c : curve) (t : Q) (r : result Q) :
  no_flat_segment c -> interp_scan c t = Some r -> exists v, r = Ok v.
Proof.
  induction c as [|[t0 th0] [|[t1 th1] rest] IH]; intros Hflat Hscan; try discriminate.
  cbn [interp_scan] in Hscan. destruct Hflat as [Hne Hrest].
  destruct (Qle_bool t0 t && Qle_bool t t1).
  - injection Hscan as <-. rewrite py_div_ok; [simpl; eauto|].
    simpl in Hne. lra.
  - now apply IH.
Qed.

Lemma interp_thrust_no_flat (c : curve) (t : Q) :
  no_flat_segment c -> exists v, interp_thrust c t = Ok v.
Proof.
  intros Hflat. unfold interp_thrust.
  destruct (length c <? 2)%nat; [eauto|].
  destruct (interp_scan c t) as [r|] eqn:E.
  - eapply interp_scan_no_flat; eauto.
  - destruct (Qltb _ t); eauto.
Qed.

(** The only exception of [interp_thrust] is that of its division. *)
Lemma interp_thrust_raises (c : curve) (t : Q) (e : exn) :
  interp_thrust c t = Raise e -> e = ZeroDivisionError.
Proof.
  unfold interp_thrust. destruct (length c <? 2)%nat; [discriminate|].
  destruct (interp_scan c t) as [r|] eqn:Escan.
  - intros ->. revert Escan.
    induction c as [|[t0 th0] [|[t1 th1] rest] IH]; intros H; try discriminate.
    cbn [interp_scan] in H. destruct (Qle_bool t0 t && Qle_bool t t1).
    + injection H as H. unfold py_div in H.
      destruct (Qeq_bool (t1 - t0) 0); [|discriminate]. now injection H.
    + now apply IH.
  - destruct (Qltb _ t); discriminate.
Qed.

Lemma interp_thrust_short (c : curve) (t : Q) :
  (length c < 2)%nat -> interp_thrust c t = Ok 0.
Proof.
  intros H. unfold interp_thrust. apply Nat.ltb_lt in H. now rewrite H.
Qed.

Lemma last_default (c : curve) (p d : control_point) :
  last c = Some p -> List.last c d = p.
Proof.
  induction c as [|q [|r rest] IH]; intros H; try discriminate.
  - now injection H.
  - now apply IH.
Qed.

Lemma increasing_consecutive (c : curve) (i : nat) (p q : control_point) :
  times_increasing c -> c !! i = Some p -> c !! S i = Some q -> p.1 < q.1.
Proof.
  revert i. induction c as [|a [|b rest] IH]; intros i Hs Hi HSi; try discriminate.
  destruct Hs as [Hab Hrest]. destruct i as [|i].
  - injection Hi as ->. injection HSi as ->. exact Hab.
  - apply (IH i Hrest Hi HSi).
Qed.

(** On a strictly increasing curve the scan stops at the first segment
    that holds [t]: the first segment of the curve, or one that [t] lies
    in beyond its left end.  It returns the interpolation expression of
    that segment. *)
Lemma interp_scan_first_segment (c : curve) (i : nat) (t t0 thrust0 t1 thrust1 : Q) :
  times_increasing c ->
  c !! i = Some (t0, thrust0) -> c !! S i = Some (t1, thrust1) ->
  t0 <= t <= t1 -> i = 0%nat \/ t0 < t ->
  interp_scan c t = Some (Ok (thrust0 + (thrust1 - thrust0) * (t - t0) / (t1 - t0))).
Proof.
  intros Hs Hi HSi [Hlo Hhi] Hfirst.
  pose proof (increasing_consecutive c i _ _ Hs Hi HSi) as H01. simpl in H01.
  revert i Hs Hi HSi Hfirst.
  induction c as [|[a tha] [|[b thb] rest] IH]; intros i Hs Hi HSi Hfirst;
    try discriminate.
  cbn [interp_scan]. destruct Hs as [Hab Hrest]. simpl in Hab.
  destruct i as [|i].
  - injection Hi as -> ->. injection HSi as -> ->.
    assert (Etest : Qle_bool t0 t && Qle_bool t t1 = true).
    { apply andb_true_iff. split; apply Qle_bool_iff; assumption. }
    rewrite Etest, py_div_ok by lra. reflexivity.
  - destruct Hfirst as [Hfirst|Hlt]; [discriminate Hfirst|].
    assert (Hbt0 : b <= t0).
    { destruct i as [|i]; [injection Hi as -> _; lra|].
      apply Qlt_le_weak.
      apply (increasing_head_lt rest (b, thb) (t0, thrust0) Hrest).
      apply list_elem_of_lookup. exists i. exact Hi. }
    assert (Etest : Qle_bool t b = false) by (apply Qle_bool_false; lra).
    rewrite Etest, andb_false_r.
    apply (IH i Hrest Hi HSi).
    destruct i as [|i]; [now left | now right].
Qed.

(** Beyond the last control point the burn is over. *)
Lemma interp_thrust_after (c : curve) (p : control_point) (t : Q) :
  times_nondecreasing c -> last c = Some p -> p.1 < t ->
  interp_thrust c t = Ok 0.
Proof.
  intros Hs Hlast Ht. unfold interp_thrust.
  destruct (length c <? 2)%nat; [reflexivity|].
  assert (Hall : forall q, q ∈ c -> q.1 <= p.1).
  { clear Ht. revert Hs Hlast. induction c as [|r [|r' rest] IH]; intros Hs Hlast q Hq.
    - inversion Hq.
    - apply list_elem_of_singleton in Hq as ->. injection Hlast as ->. lra.
    - destruct Hs as [Hle Hrest].
      apply elem_of_cons in Hq as [->|Hq].
      + assert (r'.1 <= p.1) by (apply IH; [assumption..|left]). lra.
      + now apply IH. }
  rewrite interp_scan_after.
  - rewrite (last_default c p (0, 0) Hlast).
    apply Qltb_true in Ht. now rewrite Ht.
  - intros q Hq. specialize (Hall q Hq). lra.
Qed.

(** Before the first control point of a sorted curve the fall-through
    [return thrust_curve[0][1]] is reached. *)
Lemma interp_thrust_before (c : curve) (p : control_point) (t : Q) :
  times_nondecreasing c -> (2 <= length c)%nat -> head c = Some p -> t < p.1 ->
  interp_thrust c t = Ok p.2.
Proof.
  intros Hs Hlen Hhead Ht. unfold interp_thrust.
  apply Nat.ltb_ge in Hlen. rewrite Hlen.
  destruct c as [|p0 rest]; [discriminate|]. injection Hhead as ->.
  assert (Hall : forall q, q ∈ p :: rest -> t < q.1).
  { intros q Hq. apply elem_of_cons in Hq as [->|Hq]; [exact Ht|].
    pose proof (nondecreasing_head_le rest p q Hs Hq). lra. }
  rewrite interp_scan_before by exact Hall.
  assert (Hl : t < (List.last (p :: rest) (0, 0)).1).
  { apply Hall. destruct (last (p :: rest)) as [l|] eqn:El.
    - rewrite (last_default _ l (0, 0) El). now apply last_Some_elem_of.
    - now apply last_None in El. }
  assert (Hf : Qltb (List.last (p :: rest) (0, 0)).1 t = false) by (qprop; lra).
  rewrite Hf. reflexivity.
Qed.

(** ** [check_conditions] and [run_events] *)



Lemma fires_true (d : event) (state : flight_state) :
  fires d state = true
  <-> ev_triggered d = false /\ ev_time d <= time state
      /\ check_conditions (ev_condition d) state = true.
Proof.
  unfold fires. rewrite !andb_true_iff, negb_true_iff, Qle_bool_iff. tauto.
Qed.

Lemma fires_set_triggered (d : event) (state : flight_state) :
  fires (set_triggered d) state = false.
Proof. reflexivity. Qed.

(** The list under construction only grows at its end. *)
Lemma run_events_from_acc (evs : list loc) (state : flight_state) (s : store)
    (acc : list loc) :
  run_events_from evs state s acc
  = (acc ++ (run_events evs state s).1, (run_events evs state s).2).
Proof.
  unfold run_events. revert s acc.
  induction evs as [|ev rest IH]; intros s acc; cbn [run_events_from].
  - now rewrite app_nil_r.
  - destruct (s !! ev) as [d|]; [destruct (fires d state)|]; try apply IH.
    rewrite (IH _ (acc ++ [ev])), (IH _ ([] ++ [ev])). cbn [fst snd].
    now rewrite <- app_assoc.
Qed.

Lemma run_events_cons (ev : loc) (rest : list loc) (state : flight_state) (s : store) :
  run_events (ev :: rest) state s
  = match s !! ev with
    | Some d =>
        if fires d state
        then let r := run_events rest state (<[ev := set_triggered d]> s) in
             (ev :: r.1, r.2)
        else run_events rest state s
    | None => run_events rest state s
    end.
Proof.
  unfold run_events at 1. cbn [run_events_from].
  destruct (s !! ev) as [d|]; [destruct (fires d state)|]; try reflexivity.
  now rewrite run_events_from_acc.
Qed.

(** One call of the evaluator: who fires, that nobody fires twice, and
    what the call does to the store. *)
Lemma run_events_spec (evs : list loc) (state : flight_state) (s : store) :
  (forall l, l ∈ (run_events evs state s).1
             <-> l ∈ evs /\ exists d, s !! l = Some d /\ fires d state = true)
  /\ NoDup (run_events evs state s).1
  /\ (forall l, (run_events evs state s).2 !! l
                = if bool_decide (l ∈ (run_events evs state s).1)
                  then set_triggered <$> s !! l else s !! l).
Proof.
  revert s. induction evs as [|ev rest IH]; intros s.
  - cbn. split; [|split].
    + intros l. split; [intros H; inversion H | intros [H _]; inversion H].
    + constructor.
    + reflexivity.
  - rewrite run_events_cons.
    destruct (s !! ev) as [d|] eqn:Elook; [destruct (fires d state) eqn:Efire|].
    + (* [ev] fires *)
      set (s1 := <[ev := set_triggered d]> s).
      destruct (IH s1) as (IHin & IHnd & IHst). cbn [fst snd].
      assert (Hs1 : s1 !! ev = Some (set_triggered d)).
      { apply list_lookup_insert_eq. eapply lookup_lt_Some; eauto. }
      assert (Hnot : ev ∉ (run_events rest state s1).1).
      { intros Hin. apply IHin in Hin as (_ & d' & Hd' & Hf).
        rewrite Hs1 in Hd'. injection Hd' as <-. discriminate. }
      split; [|split].
      * intros l. rewrite !elem_of_cons, IHin. split.
        -- intros [->|(Hin & d' & Hd' & Hf)]; [eauto|].
           destruct (decide (l = ev)) as [->|Hne].
           ++ rewrite Hs1 in Hd'. injection Hd' as <-. discriminate.
           ++ unfold s1 in Hd'. rewrite list_lookup_insert_ne in Hd' by auto. eauto.
        -- intros ([->|Hin] & d' & Hd' & Hf); [now left|].
           destruct (decide (l = ev)) as [->|Hne]; [now left|]. right.
           split; [assumption|]. exists d'. unfold s1.
           rewrite list_lookup_insert_ne by auto. auto.
      * now constructor.
      * intros l. rewrite IHst. destruct (decide (l = ev)) as [->|Hne].
        -- rewrite (bool_decide_eq_false_2 _ Hnot).
           rewrite bool_decide_eq_true_2 by left.
           now rewrite Hs1, Elook.
        -- unfold s1. rewrite list_lookup_insert_ne by auto.
           destruct (decide (l ∈ (run_events rest state (<[ev:=set_triggered d]> s)).1)) as [Hin|Hin].
           ++ rewrite !bool_decide_eq_true_2; [reflexivity | now right | assumption].
           ++ rewrite !bool_decide_eq_false_2; [reflexivity | | assumption].
              rewrite elem_of_cons. tauto.
    + (* [ev] is held back *)
      destruct (IH s) as (IHin & IHnd & IHst).
      split; [|split]; [|assumption..].
      intros l. rewrite IHin, elem_of_cons. split.
      * intros (Hin & Hd). split; [now right | assumption].
      * intros ([->|Hin] & d' & Hd' & Hf); [|eauto].
        rewrite Elook in Hd'. injection Hd' as <-. congruence.
    + destruct (IH s) as (IHin & IHnd & IHst).
      split; [|split]; [|assumption..].
      intros l. rewrite IHin, elem_of_cons. split.
      * intros (Hin & Hd). split; [now right | assumption].
      * intros ([->|Hin] & d' & Hd' & Hf); [|eauto]. congruence.
Qed.

(** Where no listed event can fire, a call changes nothing. *)
Lemma run_events_quiet (evs : list loc) (state : flight_state) (s : store) :
  (forall l d, l ∈ evs -> s !! l = Some d -> fires d state = false) ->
  run_events evs state s = ([], s).
Proof.
  intros Hq. destruct (run_events_spec evs state s) as (Hin & _ & Hlook).
  assert (Hnil : (run_events evs state s).1 = []).
  { apply elem_of_nil_inv. intros l Hl. apply Hin in Hl as (Hl & d & Hd & Hf).
    rewrite (Hq l d Hl Hd) in Hf. discriminate. }
  destruct (run_events evs state s) as [tr s'] eqn:E. cbn [fst snd] in *. subst tr.
  f_equal. apply list_eq. intros l. rewrite Hlook.
  rewrite bool_decide_eq_false_2; [reflexivity|]. apply not_elem_of_nil.
Qed.

(** ** The loop of [simulate_flight] *)

Lemma steps_time_S (n : nat) : steps_time (S n) == steps_time n + dt.
Proof.
  unfold steps_time. rewrite Nat2Z.inj_succ. unfold Z.succ.
  rewrite inject_Z_plus. unfold dt. change (inject_Z 1) with 1. lra.
Qed.

Lemma steps_time_cutoff (n : nat) : 300 < steps_time n <-> (cutoff_steps <= n)%nat.
Proof.
  unfold steps_time, dt, cutoff_steps. split; intros H.
  - destruct (Z_lt_le_dec 6000 (Z.of_nat n)) as [Hlt|Hle]; [lia|exfalso].
    assert (Hq : inject_Z (Z.of_nat n) <= inject_Z 6000%Z).
    { rewrite <- Zle_Qle. lia. }
    change (inject_Z 6000%Z) with 6000 in Hq. lra.
  - assert (Hq : inject_Z 6001%Z <= inject_Z (Z.of_nat n)).
    { rewrite <- Zle_Qle. lia. }
    change (inject_Z 6001%Z) with 6001 in Hq. lra.
Qed.

Section LoopFacts.

Variables (mass area drag_coeff : Q) (thrust_curve : curve) (evs : list loc).

(** What one pass leaves in the loop variables. *)
Lemma loop_body_inv (st st' : loop_state) :
  loop_body mass area drag_coeff thrust_curve evs st = Ok st' ->
  exists state,
    ls_data st' = ls_data st ++ [state]
    /\ ls_t st' = ls_t st + dt
    /\ time state = ls_t st'
    /\ altitude state = ls_altitude st'
    /\ 0 <= ls_altitude st'
    /\ ls_store st' = (run_events evs state (ls_store st)).2
    /\ ls_printed st'
       = ls_printed st
         ++ map (fun ev => (ls_t st', ev)) (run_events evs state (ls_store st)).1.
Proof.
  unfold loop_body. intros H.
  destruct (interp_thrust thrust_curve (ls_t st)) as [thrust|]; [|discriminate].
  cbn [bind] in H.
  destruct (py_div _ mass) as [accel|]; [|discriminate].
  cbn [bind] in H.
  match type of H with context [run_events evs ?x _] => set (state := x) in * end.
  destruct (run_events evs state (ls_store st)) as [tr s'] eqn:E.
  injection H as <-. exists state. rewrite E.
  cbn [ls_data ls_t ls_altitude ls_store ls_printed fst snd].
  do 4 (split; [reflexivity|]). split; [|split; reflexivity].
  destruct (Qltb _ 0) eqn:Et; qprop; lra.
Qed.

(** In the exact model a pass raises only from one of its two
    divisions. *)
Lemma loop_body_ok (st : loop_state) :
  ~ mass == 0 -> no_flat_segment thrust_curve -> exists st', loop_body mass area drag_coeff thrust_curve evs st = Ok st'.
Proof.
  intros Hm Hflat. unfold loop_body.
  destruct (interp_thrust_no_flat thrust_curve (ls_t st) Hflat) as [thrust ->].
  cbn [bind]. rewrite py_div_ok by exact Hm. cbn [bind].
  destruct (run_events _ _ _). eauto.
Qed.

Lemma loop_body_zero_mass (st : loop_state) :
  mass == 0 -> loop_body mass area drag_coeff thrust_curve evs st = Raise ZeroDivisionError.
Proof.
  intros Hm. unfold loop_body.
  destruct (interp_thrust thrust_curve (ls_t st)) as [thrust|e] eqn:E.
  - cbn [bind]. now rewrite py_div_zero.
  - now rewrite (interp_thrust_raises _ _ _ E).
Qed.

Lemma iterate_ok (n : nat) (st : loop_state) :
  ~ mass == 0 -> no_flat_segment thrust_curve -> exists st', iterate_body mass area drag_coeff thrust_curve evs n st = Ok st'.
Proof.
  intros Hm Hflat. revert st. induction n as [|n IH]; intros st; cbn [iterate_body].
  - eauto.
  - destruct (loop_body_ok st Hm Hflat) as [st1 ->]. cbn [bind]. apply IH.
Qed.

(** An invariant of the body holds after any number of passes. *)
Lemma iterate_invariant (P : nat -> loop_state -> Prop) :
  (forall k st st', P k st -> loop_body mass area drag_coeff thrust_curve evs st = Ok st' -> P (S k) st') ->
  forall n k st st', P k st -> iterate_body mass area drag_coeff thrust_curve evs n st = Ok st' -> P (k + n)%nat st'.
Proof.
  intros Hstep. induction n as [|n IH]; intros k st st' HP Hit; cbn [iterate_body] in Hit.
  - injection Hit as <-. now rewrite Nat.add_0_r.
  - destruct (loop_body mass area drag_coeff thrust_curve evs st) as [st1|] eqn:E; [|discriminate]. cbn [bind] in Hit.
    rewrite <- Nat.add_succ_comm. eapply IH; eauto.
Qed.

(** In the exact model the clamp keeps the loop condition true, so the
    loop is left when [t] passes 300 and not before: from a state reached after [n]
    passes, the loop is [k] more passes with [n + k = cutoff_steps]. *)
Lemma flight_loop_iterate (k n fuel : nat) (st : loop_state) :
  ls_t st == steps_time n -> 0 <= ls_altitude st ->
  (n + S k = cutoff_steps)%nat -> (S k <= fuel)%nat ->
  flight_loop mass area drag_coeff thrust_curve evs fuel st
  = Some (match iterate_body mass area drag_coeff thrust_curve evs (S k) st with
          | Ok st' => Ok (st', true)
          | Raise e => Raise e
          end).
Proof.
  revert n fuel st. induction k as [|k IH]; intros n fuel st Ht Halt Hn Hfuel;
    (destruct fuel as [|fuel]; [lia|]); cbn [flight_loop iterate_body].
  - apply Qle_bool_iff in Halt. rewrite Halt.
    destruct (loop_body mass area drag_coeff thrust_curve evs st) as [st1|e] eqn:E; [|reflexivity]. cbn [bind].
    destruct (loop_body_inv st st1 E) as (_ & _ & Ht1 & _).
    assert (Hcut : Qltb 300 (ls_t st1) = true).
    { qprop. rewrite Ht1, Ht, <- steps_time_S. apply steps_time_cutoff.
      lia. }
    now rewrite Hcut.
  - apply Qle_bool_iff in Halt. rewrite Halt.
    destruct (loop_body mass area drag_coeff thrust_curve evs st) as [st1|e] eqn:E; [|reflexivity]. cbn [bind].
    destruct (loop_body_inv st st1 E) as (_ & _ & Ht1 & _ & _ & Halt1 & _).
    assert (Ht1' : ls_t st1 == steps_time (S n)).
    { rewrite Ht1, Ht, <- steps_time_S. reflexivity. }
    assert (Hcut : Qltb 300 (ls_t st1) = false).
    { qprop. rewrite Ht1'. apply Qnot_lt_le. rewrite steps_time_cutoff.
      lia. }
    rewrite Hcut. apply (IH (S n)); auto; lia.
Qed.

(** The samples recorded by [n] passes from the initial state carry
    the times [dt], [2 dt], ... *)
Lemma iterate_times (s : store) (n : nat) (st : loop_state) :
  iterate_body mass area drag_coeff thrust_curve evs n (initial_state s) = Ok st ->
  length (ls_data st) = n
  /\ ls_t st == steps_time n
  /\ forall i state, ls_data st !! i = Some state -> time state == steps_time (S i).
Proof.
  intros H.
  set (P := fun (k : nat) (st : loop_state) =>
              length (ls_data st) = k
              /\ ls_t st == steps_time k
              /\ forall i state, ls_data st !! i = Some state ->
                                 time state == steps_time (S i)).
  enough (Hstep : forall k st st', P k st -> loop_body mass area drag_coeff thrust_curve evs st = Ok st' -> P (S k) st').
  { apply (iterate_invariant P Hstep n 0%nat (initial_state s) st); [|exact H].
    cbn. split; [reflexivity|]. split; [reflexivity|]. intros i x Hi. inversion Hi. }
  clear. intros k st st' (Hlen & Ht & Hdata) Hbody. unfold P. clear P.
  
    destruct (loop_body_inv st st' Hbody) as (state & Hd & Ht' & Hst & _).
    assert (Ht1 : ls_t st' == steps_time (S k)).
    { rewrite Ht', Ht, <- steps_time_S. reflexivity. }
    split; [|split]; [| exact Ht1 |].
    + rewrite Hd, length_app. cbn. lia.
    + intros i x Hi. rewrite Hd in Hi.
      apply lookup_app_Some in Hi as [Hi|[Hge Hi]]; [now apply Hdata|].
      apply list_lookup_singleton_Some in Hi as [Hi ->].
      assert (i = k) as -> by lia. now rewrite Hst.
Qed.

(** The events printed by [n] passes are pairwise distinct, and the
    store is the one the passes started from with exactly those events
    flagged. *)
Lemma iterate_events (s : store) (n : nat) (st : loop_state) :
  iterate_body mass area drag_coeff thrust_curve evs n (initial_state s) = Ok st ->
  NoDup (ls_printed st).*2
  /\ forall l, ls_store st !! l
               = if bool_decide (l ∈ (ls_printed st).*2)
                 then set_triggered <$> s !! l else s !! l.
Proof.
  intros H.
  set (P := fun (_ : nat) (st : loop_state) =>
              NoDup (ls_printed st).*2
              /\ forall l, ls_store st !! l
                           = if bool_decide (l ∈ (ls_printed st).*2)
                             then set_triggered <$> s !! l else s !! l).
  enough (Hstep : forall k st st', P k st -> loop_body mass area drag_coeff thrust_curve evs st = Ok st' -> P (S k) st').
  { apply (iterate_invariant P Hstep n 0%nat (initial_state s) st); [|exact H].
    cbn. split; [constructor|]. intros l. reflexivity. }
  clear. intros k st st' (Hnd & Hst) Hbody. unfold P. clear P k.
  
    destruct (loop_body_inv st st' Hbody) as (state & _ & _ & _ & _ & _ & Hs' & Hp').
    destruct (run_events_spec evs state (ls_store st)) as (Hin & Hnd' & Hlook).
    set (tr := (run_events evs state (ls_store st)).1) in *.
    assert (Hp2 : (ls_printed st').*2 = (ls_printed st).*2 ++ tr).
    { rewrite Hp', fmap_app. f_equal. rewrite <- list_fmap_compose.
      apply list_fmap_id. }
    assert (Hfresh : forall l, l ∈ tr -> l ∉ (ls_printed st).*2).
    { intros l Hl Hold. apply Hin in Hl as (_ & d & Hd & Hf).
      rewrite Hst, (bool_decide_eq_true_2 _ Hold) in Hd.
      destruct (s !! l) as [d0|]; [|discriminate]. injection Hd as <-.
      discriminate. }
    rewrite Hp2. split.
    + apply NoDup_app. split; [assumption|]. split; [|assumption].
      intros l Hold Hl. exact (Hfresh l Hl Hold).
    + intros l. rewrite Hs', Hlook.
      destruct (decide (l ∈ tr)) as [Hl|Hl].
      * rewrite (bool_decide_eq_true_2 _ Hl), Hst.
        rewrite (bool_decide_eq_false_2 _ (Hfresh l Hl)).
        rewrite bool_decide_eq_true_2; [reflexivity|].
        apply elem_of_app. now right.
      * rewrite (bool_decide_eq_false_2 _ Hl), Hst.
        destruct (decide (l ∈ (ls_printed st).*2)) as [Ho|Ho].
        -- rewrite !bool_decide_eq_true_2; [reflexivity | | assumption].
           apply elem_of_app. now left.
        -- rewrite !bool_decide_eq_false_2; [reflexivity | | assumption].
           rewrite elem_of_app. tauto.
Qed.

Lemma iterate_add (n m : nat) (st : loop_state) :
  iterate_body mass area drag_coeff thrust_curve evs (n + m) st = let* st' := iterate_body mass area drag_coeff thrust_curve evs n st in iterate_body mass area drag_coeff thrust_curve evs m st'.
Proof.
  revert st. induction n as [|n IH]; intros st; cbn [iterate_body Nat.add bind].
  - reflexivity.
  - destruct (loop_body mass area drag_coeff thrust_curve evs st) as [st1|]; cbn [bind]; [apply IH | reflexivity].
Qed.

(** [data] is append-only. *)
Lemma iterate_data_prefix (n : nat) (st st' : loop_state) :
  iterate_body mass area drag_coeff thrust_curve evs n st = Ok st' -> exists more, ls_data st' = ls_data st ++ more.
Proof.
  revert st. induction n as [|n IH]; intros st H; cbn [iterate_body] in H.
  - injection H as <-. exists []. now rewrite app_nil_r.
  - destruct (loop_body mass area drag_coeff thrust_curve evs st) as [st1|] eqn:E; [|discriminate]. cbn [bind] in H.
    destruct (loop_body_inv st st1 E) as (state & Hd & _).
    destruct (IH st1 H) as [more Hmore].
    exists (state :: more). rewrite Hmore, Hd, <- app_assoc. reflexivity.
Qed.

(** Once every listed event is flagged, the passes neither print an
    event nor touch the store. *)
Lemma iterate_quiet (n : nat) (st st' : loop_state) :
  (forall l d, l ∈ evs -> ls_store st !! l = Some d -> ev_triggered d = true) ->
  iterate_body mass area drag_coeff thrust_curve evs n st = Ok st' ->
  ls_store st' = ls_store st /\ ls_printed st' = ls_printed st.
Proof.
  revert st. induction n as [|n IH]; intros st Hq H; cbn [iterate_body] in H.
  - injection H as <-. auto.
  - destruct (loop_body mass area drag_coeff thrust_curve evs st) as [st1|] eqn:E; [|discriminate]. cbn [bind] in H.
    destruct (loop_body_inv st st1 E) as (state & _ & _ & _ & _ & _ & Hs1 & Hp1).
    assert (Hquiet : run_events evs state (ls_store st) = ([], ls_store st)).
    { apply run_events_quiet. intros l d Hl Hd. unfold fires.
      now rewrite (Hq l d Hl Hd). }
    rewrite Hquiet in Hs1, Hp1.
    cbn [fst snd map] in Hs1, Hp1. rewrite app_nil_r in Hp1.
    destruct (IH st1) as [Hs Hp]; [rewrite Hs1; exact Hq | exact H |].
    rewrite Hs, Hp. auto.
Qed.

(** More fuel does not change a result. *)
Lemma flight_loop_fuel (fuel fuel' : nat) (st : loop_state) r :
  flight_loop mass area drag_coeff thrust_curve evs fuel st = Some r -> (fuel <= fuel')%nat -> flight_loop mass area drag_coeff thrust_curve evs fuel' st = Some r.
Proof.
  revert fuel' st. induction fuel as [|fuel IH]; intros fuel' st H Hle; [discriminate|].
  destruct fuel' as [|fuel']; [lia|]. cbn [flight_loop] in *.
  destruct (Qle_bool 0 (ls_altitude st)); [|exact H].
  destruct (loop_body mass area drag_coeff thrust_curve evs st) as [st1|e]; [|exact H].
  destruct (Qltb 300 (ls_t st1)); [exact H|].
  apply IH; [exact H | lia].
Qed.

End LoopFacts.

(** ** [simulate_flight] *)

Lemma cutoff_steps_S : cutoff_steps = S (Z.to_nat 6000).
Proof. unfold cutoff_steps. lia. Qed.

(** With fuel for [cutoff_steps] passes the run is those passes, left
    through [break]. *)
Lemma simulate_flight_run (fuel : nat) (config : MissionConfig) (s : store) :
  (cutoff_steps <= fuel)%nat ->
  simulate_flight fuel config s
  = Some (match flight_passes cutoff_steps config s with
          | Ok st => Ok (output_of st true)
          | Raise e => Raise e
          end).
Proof.
  intros Hfuel. unfold simulate_flight, flight_passes.
  rewrite (flight_loop_iterate _ _ _ _ _ (Z.to_nat 6000) 0 fuel).
  - rewrite <- cutoff_steps_S. now destruct (iterate_body _ _ _ _ _ _ _).
  - reflexivity.
  - cbn. lra.
  - now rewrite <- cutoff_steps_S.
  - now rewrite <- cutoff_steps_S.
Qed.

Lemma simulate_flight_fuel (fuel fuel' : nat) (config : MissionConfig) (s : store) r :
  simulate_flight fuel config s = Some r -> (fuel <= fuel')%nat ->
  simulate_flight fuel' config s = Some r.
Proof.
  unfold simulate_flight. intros H Hle.
  destruct (flight_loop _ _ _ _ _ fuel _) as [r0|] eqn:E; [|discriminate].
  now rewrite (flight_loop_fuel _ _ _ _ _ fuel fuel' _ r0 E Hle).
Qed.

(** Whatever the fuel, a run of the exact model that returns has made
    [cutoff_steps] passes and has left the loop through [break]. *)
Lemma simulate_flight_returns (fuel : nat) (config : MissionConfig) (s : store)
    (out : flight_output) :
  simulate_flight fuel config s = Some (Ok out) ->
  exists st, flight_passes cutoff_steps config s = Ok st /\ out = output_of st true.
Proof.
  intros H.
  apply (simulate_flight_fuel _ (Nat.max fuel cutoff_steps)) in H; [|lia].
  rewrite simulate_flight_run in H by lia.
  destruct (flight_passes cutoff_steps config s) as [st|]; [|discriminate].
  injection H as <-. eauto.
Qed.

(** In the exact model a run raises only from one of the two divisions
    of the body. *)
Lemma simulate_flight_total (fuel : nat) (config : MissionConfig) (s : store) :
  ~ effective_mass config == 0 -> no_flat_segment (config_curve config) ->
  (cutoff_steps <= fuel)%nat ->
  exists st, flight_passes cutoff_steps config s = Ok st
             /\ simulate_flight fuel config s = Some (Ok (output_of st true)).
Proof.
  intros Hm Hflat Hfuel. rewrite simulate_flight_run by exact Hfuel.
  destruct (iterate_ok _ (frontal_area config) (drag_coefficient config) _
              (events config) cutoff_steps (initial_state s) Hm Hflat) as [st Hst].
  exists st. unfold flight_passes. rewrite Hst. split; reflexivity.
Qed.

Lemma simulate_flight_zero_mass (fuel : nat) (config : MissionConfig) (s : store) :
  effective_mass config == 0 ->
  simulate_flight (S fuel) config s = Some (Raise ZeroDivisionError).
Proof.
  intros Hm. unfold simulate_flight. cbn [flight_loop initial_state ls_altitude].
  change (Qle_bool 0 0) with true. cbv iota.
  now rewrite loop_body_zero_mass.
Qed.

(** The passes after the first [n]. *)
Lemma flight_passes_split (n m : nat) (config : MissionConfig) (s : store)
    (st : loop_state) :
  flight_passes n config s = Ok st ->
  flight_passes (n + m) config s
  = iterate_body (effective_mass config) (frontal_area config)
      (drag_coefficient config) (config_curve config) (events config) m st.
Proof.
  unfold flight_passes. intros H. rewrite iterate_add, H. reflexivity.
Qed.

(** On a store where every listed event is flagged already, the passes
    print no event and leave the store as it is. *)
Lemma flight_passes_quiet (n : nat) (config : MissionConfig) (s : store)
    (st : loop_state) :
  (forall l d, l ∈ events config -> s !! l = Some d -> ev_triggered d = true) ->
  flight_passes n config s = Ok st ->
  ls_store st = s /\ ls_printed st = [].
Proof.
  unfold flight_passes. intros Hq H. apply iterate_quiet in H; [exact H | exact Hq].
Qed.

(** The samples of a run of the exact model that returns. *)
Lemma simulate_flight_samples (fuel : nat) (config : MissionConfig) (s : store)
    (out : flight_output) :
  simulate_flight fuel config s = Some (Ok out) ->
  out_timeout out = true
  /\ length (out_data out) = cutoff_steps
  /\ forall i state, out_data out !! i = Some state -> time state == steps_time (S i).
Proof.
  intros H. apply simulate_flight_returns in H as (st & Hst & ->).
  apply iterate_times in Hst as (Hlen & _ & Htimes). cbn. auto.
Qed.

(** The passes made before the run is over are a prefix of the run. *)
Lemma simulate_flight_prefix (fuel n : nat) (config : MissionConfig) (s : store)
    (out : flight_output) (st : loop_state) :
  simulate_flight fuel config s = Some (Ok out) -> (n <= cutoff_steps)%nat ->
  flight_passes n config s = Ok st ->
  exists more, out_data out = ls_data st ++ more.
Proof.
  intros H Hn Hst. apply simulate_flight_returns in H as (st' & Hst' & ->).
  unfold flight_passes in *.
  replace cutoff_steps with (n + (cutoff_steps - n))%nat in Hst' by lia.
  rewrite iterate_add, Hst in Hst'. cbn [bind] in Hst'.
  apply iterate_data_prefix in Hst'. exact Hst'.
Qed.

Lemma last_sample_time (fuel : nat) (config : MissionConfig) (s : store)
    (out : flight_output) :
  simulate_flight fuel config s = Some (Ok out) ->
  exists state, last (out_data out) = Some state /\ time state == 300.05.
Proof.
  intros H. apply simulate_flight_samples in H as (_ & Hlen & Htimes).
  destruct (last (out_data out)) as [state|] eqn:El.
  - exists state. split; [reflexivity|].
    rewrite last_lookup, Hlen in El. rewrite (Htimes _ _ El).
    replace (S (Nat.pred cutoff_steps)) with cutoff_steps by (unfold cutoff_steps; lia).
    reflexivity.
  - apply last_None in El. rewrite El in Hlen. unfold cutoff_steps in Hlen.
    cbn [length] in Hlen. lia.
Qed.

(** One pass, in full. *)
Lemma loop_body_sample (mass area drag_coeff : Q) (thrust_curve : curve)
    (evs : list loc) (st st' : loop_state) :
  loop_body mass area drag_coeff thrust_curve evs st = Ok st' ->
  exists thrust state,
    interp_thrust thrust_curve (ls_t st) = Ok thrust
    /\ ~ mass == 0
    /\ acceleration state
       = (thrust - drag_force drag_coeff area (ls_velocity st) - mass * GRAVITY) / mass
    /\ velocity state = ls_velocity st + acceleration state * dt
    /\ altitude state
       = (if Qltb (ls_altitude st + velocity state * dt) 0 then 0
          else ls_altitude st + velocity state * dt)
    /\ time state = ls_t st + dt
    /\ ls_data st' = ls_data st ++ [state]
    /\ ls_t st' = time state
    /\ ls_velocity st' = velocity state
    /\ ls_altitude st' = altitude state.
Proof.
  unfold loop_body. intros H.
  destruct (interp_thrust thrust_curve (ls_t st)) as [thrust|]; [|discriminate].
  cbn [bind] in H. unfold py_div in H.
  destruct (Qeq_bool mass 0) eqn:Em; [discriminate|]. cbn [bind] in H.
  match type of H with context [run_events evs ?x _] => set (state := x) in * end.
  destruct (run_events evs state (ls_store st)) as [tr s'].
  injection H as <-. exists thrust, state.
  split; [reflexivity|]. split; [now apply Qeq_bool_false|].
  cbn [ls_data ls_t ls_velocity ls_altitude].
  repeat (split; [reflexivity|]). reflexivity.
Qed.

(** The samples of any number of passes obey the recurrence of the
    body. *)
Lemma flight_passes_recurrence (n : nat) (config : MissionConfig) (s : store)
    (st : loop_state) :
  flight_passes n config s = Ok st ->
  tracks st
  /\ (forall a, ls_data st !! 0%nat = Some a ->
        follows (effective_mass config) (frontal_area config)
          (drag_coefficient config) (config_curve config) launch_pad a)
  /\ (forall i a b, ls_data st !! i = Some a -> ls_data st !! S i = Some b ->
        follows (effective_mass config) (frontal_area config)
          (drag_coefficient config) (config_curve config) a b).
Proof.
  unfold flight_passes. intros H.
  set (F := follows (effective_mass config) (frontal_area config)
              (drag_coefficient config) (config_curve config)).
  set (P := fun (_ : nat) (st : loop_state) =>
              tracks st
              /\ (forall a, ls_data st !! 0%nat = Some a -> F launch_pad a)
              /\ (forall i a b, ls_data st !! i = Some a -> ls_data st !! S i = Some b ->
                                F a b)).
  enough (Hstep : forall k st st', P k st ->
            loop_body (effective_mass config) (frontal_area config)
              (drag_coefficient config) (config_curve config) (events config) st = Ok st' ->
            P (S k) st').
  { apply (iterate_invariant _ _ _ _ _ P Hstep n 0%nat (initial_state s) st); [|exact H].
    split; [|split].
    - unfold tracks. cbn. auto.
    - intros a Ha. inversion Ha.
    - intros i a b Ha. inversion Ha. }
  clear. intros k st st' (Htr & Hfirst & Hnext) Hbody. unfold P. clear P k.
  destruct (loop_body_sample _ _ _ _ _ _ _ Hbody)
    as (thrust & state & Hthrust & _ & Hacc & Hvel & Halt & Htime & Hdata & Ht' & Hv' & Hh').
  destruct Htr as (Et & Ev & Eh).
  assert (Hlast : F (default launch_pad (last (ls_data st))) state).
  { exists thrust. rewrite <- Et, <- Ev, <- Eh. auto. }
  split; [|split].
  - unfold tracks. rewrite Hdata, last_snoc. cbn. auto.
  - intros a Ha. rewrite Hdata in Ha.
    destruct (ls_data st) as [|a0 rest] eqn:Ed.
    + injection Ha as <-. exact Hlast.
    + apply (Hfirst a). exact Ha.
  - intros i a b Ha Hb. rewrite Hdata in Ha, Hb.
    apply lookup_app_Some in Hb as [Hb|[Hge Hb]].
    + apply (Hnext i a b); [|exact Hb].
      rewrite lookup_app_l in Ha; [exact Ha|]. apply lookup_lt_Some in Hb. lia.
    + apply list_lookup_singleton_Some in Hb as [Hi ->].
      assert (Hlen : length (ls_data st) = S i) by lia.
      rewrite lookup_app_l in Ha by lia.
      assert (El : last (ls_data st) = Some a).
      { rewrite last_lookup, Hlen. exact Ha. }
      rewrite El in Hlast. exact Hlast.
Qed.

(** *** Landing does not end the loop *)

(** The first four passes of the hop: up, and back on the ground. *)
Lemma hop_lands (s : store) :
  exists st a b,
    flight_passes 4 hop s = Ok st
    /\ ls_data st !! 0%nat = Some a /\ 0 < altitude a
    /\ ls_data st !! 3%nat = Some b /\ altitude b = 0.
Proof.
  eexists. eexists. eexists. split; [vm_compute; reflexivity|].
  split; [reflexivity|]. split; [reflexivity|]. split; reflexivity.
Qed.

(** C1 (fails on the code).  The loop of [simulate_flight] is not left on
    landing: the run of the end-to-end scenario rises off the pad and
    then makes all 6001 passes, its last sample at 300.05 s, and leaves
    through the timeout [break]; the hop has a positive altitude in its
    first sample and altitude 0 in its fourth, and its run goes on for
    6001 passes all the same. *)
Theorem landing_does_not_end_the_loop (extra : nat) (s : store) :
  (exists out a z,
      simulate_flight (cutoff_steps + extra) scenario s = Some (Ok out)
      /\ out_data out !! 0%nat = Some a /\ 0 < altitude a
      /\ Z.of_nat (length (out_data out)) = 6001%Z
      /\ last (out_data out) = Some z /\ time z == 300.05
      /\ out_timeout out = true)
  /\ (exists out a b,
        simulate_flight (cutoff_steps + extra) hop s = Some (Ok out)
        /\ out_data out !! 0%nat = Some a /\ 0 < altitude a
        /\ out_data out !! 3%nat = Some b /\ altitude b = 0
        /\ Z.of_nat (length (out_data out)) = 6001%Z
        /\ out_timeout out = true).
Proof.
  split.
  - destruct (simulate_flight_total (cutoff_steps + extra) scenario s) as (st & Hst & Hrun).
    { vm_compute. discriminate. }
    { cbn. split; [lra|exact I]. }
    { lia. }
    destruct (simulate_flight_samples _ _ _ _ Hrun) as (Hto & Hlen & _).
    destruct (last_sample_time _ _ _ _ Hrun) as (z & Hz & Htz).
    assert (H1 : exists st1 a, flight_passes 1 scenario s = Ok st1
                               /\ ls_data st1 !! 0%nat = Some a /\ 0 < altitude a).
    { eexists. eexists. split; [vm_compute; reflexivity|]. split; reflexivity. }
    destruct H1 as (st1 & a & Hst1 & Ha & Hpos).
    destruct (simulate_flight_prefix _ 1 _ _ _ _ Hrun ltac:(unfold cutoff_steps; lia) Hst1)
      as [more Hmore].
    exists (output_of st true), a, z.
    split; [exact Hrun|]. split; [|split; [exact Hpos|]].
    { rewrite Hmore. now apply lookup_app_l_Some. }
    split; [|auto]. rewrite Hlen. unfold cutoff_steps. lia.
  - destruct (simulate_flight_total (cutoff_steps + extra) hop s) as (st & Hst & Hrun).
    { vm_compute. discriminate. }
    { cbn. split; [lra|exact I]. }
    { lia. }
    destruct (simulate_flight_samples _ _ _ _ Hrun) as (Hto & Hlen & _).
    destruct (hop_lands s) as (st4 & a & b & Hst4 & Ha & Hpos & Hb & Hzero).
    destruct (simulate_flight_prefix _ 4 _ _ _ _ Hrun ltac:(unfold cutoff_steps; lia) Hst4)
      as [more Hmore].
    exists (output_of st true), a, b.
    split; [exact Hrun|]. split; [|split; [exact Hpos|]].
    { rewrite Hmore. now apply lookup_app_l_Some. }
    split; [|split; [exact Hzero|]].
    { rewrite Hmore. now apply lookup_app_l_Some. }
    split; [|exact Hto]. rewrite Hlen. unfold cutoff_steps. lia.
Qed.

(** *** Termination *)

(** C6.  [simulate_flight] terminates, whatever the configuration (the
    ones with a non-zero effective mass and strictly increasing
    control-point times among them): given room for 6001 passes the
    loop is over, by returning or by raising, so no run makes more than
    6001 passes.  In a run that returns, [t] has grown by 0.05 with
    every pass, a pass that brought it above 300 was the last one, and
    the loop was left through the timeout [break] exactly when the last
    sample lies beyond 300 s: the timeout is a way of returning the
    samples, not an error. *)
Theorem simulate_flight_terminates (fuel : nat) (config : MissionConfig) (s : store) :
  (cutoff_steps <= fuel)%nat ->
  exists r,
    simulate_flight fuel config s = Some r
    /\ forall out, r = Ok out ->
         (Z.of_nat (length (out_data out)) <= 6001)%Z
         /\ (forall a, out_data out !! 0%nat = Some a -> time a = 0 + dt)
         /\ (forall i a b, out_data out !! i = Some a -> out_data out !! S i = Some b ->
                           time b = time a + dt)
         /\ (forall i state, out_data out !! i = Some state -> 300 < time state ->
                             S i = length (out_data out))
         /\ (out_timeout out = true
             <-> exists final, last (out_data out) = Some final /\ 300 < time final).
Proof.
  intros Hfuel. rewrite simulate_flight_run by exact Hfuel.
  destruct (flight_passes cutoff_steps config s) as [st|e] eqn:E.
  - exists (Ok (output_of st true)). split; [reflexivity|].
    intros out Hout. injection Hout as <-. cbn [out_data out_timeout output_of].
    destruct (flight_passes_recurrence _ _ _ _ E) as (_ & Hfirst & Hnext).
    unfold flight_passes in E.
    destruct (iterate_times _ _ _ _ _ _ _ _ E) as (Hlen & _ & Htimes).
    split; [rewrite Hlen; unfold cutoff_steps; lia|].
    split; [|split; [|split; [|split]]].
    + intros a Ha. destruct (Hfirst a Ha) as (thrust & _ & _ & _ & _ & Ht). exact Ht.
    + intros i a b Ha Hb. destruct (Hnext i a b Ha Hb) as (thrust & _ & _ & _ & _ & Ht).
      exact Ht.
    + intros i state Hi Hlate. rewrite (Htimes i state Hi), steps_time_cutoff in Hlate.
      apply lookup_lt_Some in Hi. lia.
    + intros _. destruct (last (ls_data st)) as [final|] eqn:El.
      * exists final. split; [reflexivity|].
        rewrite last_lookup, Hlen in El. rewrite (Htimes _ _ El).
        apply steps_time_cutoff. unfold cutoff_steps. lia.
      * apply last_None in El. rewrite El in Hlen. unfold cutoff_steps in Hlen.
        cbn [length] in Hlen. lia.
    + reflexivity.
  - exists (Raise e). split; [reflexivity|]. intros out Hout. discriminate Hout.
Qed.

Lemma simulate_flight_terminates_witness :
  exists r, simulate_flight cutoff_steps scenario [] = Some r.
Proof.
  destruct (simulate_flight_terminates cutoff_steps scenario [] (le_n _)) as (r & Hr & _).
  exists r. exact Hr.
Defined.

(** In binary64 the sum of 6000 times 0.05 is already above 300: there
    the cutoff comes one pass earlier than in exact arithmetic, within
    the same bound. *)
Remark binary64_cutoff : binary64_passes cutoff_steps 0%float 0 = Some 6000%Z.
Proof. vm_compute. reflexivity. Qed.

(** The same bound holds of the loop in binary64, whatever the numbers
    of the configuration: [t] does not depend on the flight, so the loop
    is over when [t] alone has passed 300 (after 6000 passes), if it has
    not raised or been left before. *)
Lemma binary64_passes_grow (fuel : nat) (t : float) (passes k : Z) :
  binary64_passes fuel t passes = Some k -> (passes < k)%Z.
Proof.
  revert t passes. induction fuel as [|fuel IH]; intros t passes H; [discriminate|].
  cbn [binary64_passes] in H.
  destruct (PrimFloat.ltb 300 _); [injection H as <-; lia|].
  apply IH in H. lia.
Qed.

Lemma binary64_loop_body_time (mass area drag_coeff : float)
    (thrust_curve : list (float * float)) (t velocity altitude : float)
    (state : Binary64.flight_state) :
  Binary64.loop_body mass area drag_coeff thrust_curve t velocity altitude = Ok state ->
  Binary64.time state = PrimFloat.add t Binary64.dt.
Proof.
  unfold Binary64.loop_body. intros H.
  destruct (Binary64.interp_thrust thrust_curve t); [|discriminate]. cbn [bind] in H.
  destruct (Binary64.py_square velocity); [|discriminate]. cbn [bind] in H.
  destruct (Binary64.py_div _ mass); [|discriminate]. cbn [bind] in H.
  now injection H as <-.
Qed.

Lemma binary64_loop_terminates (fuel : nat) (mass area drag_coeff : float)
    (thrust_curve : list (float * float)) (t velocity altitude : float)
    (data : list Binary64.flight_state) (passes k : Z) :
  binary64_passes fuel t passes = Some k ->
  exists r,
    Binary64.flight_loop fuel mass area drag_coeff thrust_curve t velocity altitude data
    = Some r
    /\ forall samples timed_out, r = Ok (samples, timed_out) ->
         (Z.of_nat (length samples) <= Z.of_nat (length data) + (k - passes))%Z.
Proof.
  revert t velocity altitude data passes.
  induction fuel as [|fuel IH]; intros t velocity altitude data passes H; [discriminate|].
  pose proof (binary64_passes_grow _ _ _ _ H) as Hgrow.
  cbn [binary64_passes] in H. cbn [Binary64.flight_loop].
  destruct (PrimFloat.leb 0 altitude).
  - destruct (Binary64.loop_body mass area drag_coeff thrust_curve t velocity altitude)
      as [state|e] eqn:Ebody.
    + rewrite (binary64_loop_body_time _ _ _ _ _ _ _ _ Ebody).
      change Binary64.dt with 0x1.999999999999ap-5%float.
      destruct (PrimFloat.ltb 300 _).
      * injection H as <-. eexists. split; [reflexivity|].
        intros samples timed_out Hr. injection Hr as <- _.
        rewrite length_app. cbn [length]. lia.
      * destruct (IH _ (Binary64.velocity state) (Binary64.altitude state)
                    (data ++ [state]) _ H) as (r & Hr & Hbound).
        exists r. split; [exact Hr|]. intros samples timed_out Hs.
        specialize (Hbound samples timed_out Hs).
        rewrite length_app in Hbound. cbn [length] in Hbound. lia.
    + eexists. split; [reflexivity|]. intros samples timed_out Hr. discriminate Hr.
  - eexists. split; [reflexivity|]. intros samples timed_out Hr.
    injection Hr as <- _. lia.
Qed.

Remark binary64_run_terminates
    (rocket_mass rocket_diameter drag_coefficient motor_mass payload_mass : float)
    (thrust_curve : list (float * float)) :
  exists r,
    Binary64.simulate_flight cutoff_steps rocket_mass rocket_diameter drag_coefficient
      motor_mass payload_mass thrust_curve = Some r
    /\ forall samples timed_out, r = Ok (samples, timed_out) ->
         (Z.of_nat (length samples) <= 6000)%Z.
Proof.
  unfold Binary64.simulate_flight.
  destruct (Binary64.py_square _) as [square|e].
  - destruct (binary64_loop_terminates cutoff_steps
                (PrimFloat.add (PrimFloat.add rocket_mass motor_mass) payload_mass)
                (PrimFloat.mul Binary64.math_pi square) drag_coefficient thrust_curve
                0%float 0%float 0%float [] 0 6000 binary64_cutoff) as (r & Hr & Hbound).
    exists r. split; [exact Hr|]. intros samples timed_out Hs.
    specialize (Hbound samples timed_out Hs). cbn [length] in Hbound. lia.
  - eexists. split; [reflexivity|]. intros samples timed_out Hr. discriminate Hr.
Qed.

(** The runs themselves in binary64.  The end-to-end scenario (0.5 kg,
    0.05 m, Cd 0.75, the D12 curve) returns 6000 samples and leaves
    through the timeout [break], like the hop. *)
Remark binary64_scenario_run :
  Binary64.outcome
    (Binary64.simulate_flight cutoff_steps 0.5 0x1.999999999999ap-5 0.75 0 0 Binary64.D12)
  = Some (Ok (6000%Z, true))
  /\ Binary64.outcome
       (Binary64.simulate_flight cutoff_steps 1 0x1.999999999999ap-5 0.75 0 0
          [(0, 20); (0x1.999999999999ap-5, 0)]%float)
     = Some (Ok (6000%Z, true)).
Proof. split; vm_compute; reflexivity. Qed.

(** A light and wide rocket (0.05 kg, 1 m, the D12 curve) makes ten
    passes; the eleventh raises [OverflowError], at [velocity ** 2]. *)
Remark binary64_overflow :
  Binary64.outcome
    (Binary64.simulate_flight 10 0x1.999999999999ap-5 1 0.75 0 0 Binary64.D12)
  = None
  /\ Binary64.outcome
       (Binary64.simulate_flight 11 0x1.999999999999ap-5 1 0.75 0 0 Binary64.D12)
     = Some (Raise OverflowError).
Proof. split; vm_compute; reflexivity. Qed.

(** With 0.03 kg and 1.2 m an acceleration overflows to an infinity
    before a square does, the altitude becomes a NaN, and the loop is
    left through its condition: the run returns 10 samples without the
    timeout message. *)
Remark binary64_loop_left_on_nan :
  Binary64.outcome
    (Binary64.simulate_flight cutoff_steps 0x1.eb851eb851eb8p-6 0x1.3333333333333p+0
       0.75 0 0 Binary64.D12)
  = Some (Ok (10%Z, false)).
Proof. vm_compute. reflexivity. Qed.

(** *** The samples *)

(** C9 as stated fails: not every run returns samples.  The run of a
    rocket without mass raises in its first pass and returns nothing. *)
Lemma massless_run_returns_no_samples :
  simulate_flight cutoff_steps massless [] = Some (Raise ZeroDivisionError)
  /\ ~ (forall (config : MissionConfig) (s : store),
          exists out, simulate_flight cutoff_steps config s = Some (Ok out)
                      /\ out_data out <> []).
Proof.
  assert (H : simulate_flight cutoff_steps massless [] = Some (Raise ZeroDivisionError)).
  { apply (simulate_flight_fuel 1); [reflexivity|]. unfold cutoff_steps. lia. }
  split; [exact H|]. intros Hall. destruct (Hall massless []) as (out & Hout & _).
  rewrite H in Hout. discriminate Hout.
Qed.

(** C9 (amended).  A run of [simulate_flight] that returns, returns a
    non-empty list of samples, one appended by each pass through the
    loop, with (in exact arithmetic) the times 0.05, 0.10, 0.15, ... in
    this order: strictly increasing, the first at 0.05 and none at 0. *)
Theorem samples_one_per_pass (fuel : nat) (config : MissionConfig) (s : store)
    (out : flight_output) :
  simulate_flight fuel config s = Some (Ok out) ->
  out_data out <> []
  /\ (exists st, flight_passes (length (out_data out)) config s = Ok st
                 /\ out_data out = ls_data st)
  /\ (forall st st',
        loop_body (effective_mass config) (frontal_area config)
          (drag_coefficient config) (config_curve config) (events config) st = Ok st' ->
        exists state, ls_data st' = ls_data st ++ [state])
  /\ (forall i state, out_data out !! i = Some state ->
                      time state == inject_Z (Z.of_nat (S i)) * dt)
  /\ (forall i j a b, (i < j)%nat ->
                      out_data out !! i = Some a -> out_data out !! j = Some b ->
                      time a < time b)
  /\ (exists a, head (out_data out) = Some a /\ time a == dt)
  /\ (forall state, state ∈ out_data out -> ~ time state == 0).
Proof.
  intros Hrun.
  destruct (simulate_flight_samples _ _ _ _ Hrun) as (_ & Hlen & Htimes).
  assert (Hpos : forall n, 0 < steps_time (S n)).
  { intros n. unfold steps_time, dt.
    assert (inject_Z 1 <= inject_Z (Z.of_nat (S n))) by (rewrite <- Zle_Qle; lia).
    change (inject_Z 1) with 1 in *. lra. }
  split; [|split; [|split; [|split; [|split; [|split]]]]].
  - intros E. rewrite E in Hlen. unfold cutoff_steps in Hlen. cbn [length] in Hlen. lia.
  - apply simulate_flight_returns in Hrun as (st & Hst & ->). cbn [out_data] in *.
    exists st. rewrite Hlen. auto.
  - intros st st' Hbody. destruct (loop_body_inv _ _ _ _ _ _ _ Hbody) as (state & Hd & _).
    eauto.
  - exact Htimes.
  - intros i j a b Hij Ha Hb. rewrite (Htimes i a Ha), (Htimes j b Hb).
    unfold steps_time, dt.
    assert (inject_Z (Z.of_nat (S i)) < inject_Z (Z.of_nat (S j)))
      by (rewrite <- Zlt_Qlt; lia).
    lra.
  - destruct (out_data out) as [|a rest] eqn:E.
    + exfalso. unfold cutoff_steps in Hlen. cbn [length] in Hlen. lia.
    + exists a. split; [reflexivity|]. rewrite (Htimes 0%nat a eq_refl).
      unfold steps_time, dt. change (inject_Z (Z.of_nat 1)) with 1. lra.
  - intros state Hin Hzero. apply list_elem_of_lookup in Hin as [i Hi].
    specialize (Hpos i). rewrite <- (Htimes i state Hi) in Hpos. lra.
Qed.

Lemma samples_one_per_pass_witness :
  exists out,
    simulate_flight cutoff_steps scenario [] = Some (Ok out)
    /\ out_data out <> []
    /\ exists a, head (out_data out) = Some a /\ time a == dt.
Proof.
  destruct (simulate_flight_total cutoff_steps scenario []) as (st & _ & Hrun).
  - vm_compute. discriminate.
  - simpl. split; [discriminate | exact I].
  - apply le_n.
  - exists (output_of st true). split; [exact Hrun|].
    destruct (samples_one_per_pass cutoff_steps scenario [] _ Hrun)
      as (Hne & _ & _ & _ & _ & Hhead & _).
    split; [exact Hne | exact Hhead].
Defined.

(** *** Geometry and mass are not validated *)




(** *** Errors inside the loop *)

(** C4 as stated fails: on two control points at time 0 the very first
    interpolation divides by zero, and so does the first acceleration of
    a rocket of effective mass 0. *)
Lemma errors_inside_the_loop :
  interp_thrust [(0, 5); (0, 3)] 0 = Raise ZeroDivisionError
  /\ simulate_flight cutoff_steps stuttering [] = Some (Raise ZeroDivisionError)
  /\ simulate_flight cutoff_steps massless [] = Some (Raise ZeroDivisionError).
Proof.
  split; [reflexivity|]. split.
  - apply (simulate_flight_fuel 1); [reflexivity|]. unfold cutoff_steps. lia.
  - apply (simulate_flight_fuel 1); [reflexivity|]. unfold cutoff_steps. lia.
Qed.

(** C4 (amended).  With a non-zero effective mass and a thrust curve
    without two consecutive control points at one time, no pass of the
    loop divides by zero: no run raises [ZeroDivisionError].  A thrust
    curve of fewer than two points is such a curve, and gives thrust
    zero at all times. *)
Theorem no_division_by_zero_inside_the_loop (config : MissionConfig) (s : store) :
  ~ effective_mass config == 0 -> no_flat_segment (config_curve config) ->
  (forall n, flight_passes n config s <> Raise ZeroDivisionError)
  /\ (forall fuel, simulate_flight fuel config s <> Some (Raise ZeroDivisionError))
  /\ (forall c : curve, (length c < 2)%nat ->
        no_flat_segment c /\ forall t, interp_thrust c t = Ok 0).
Proof.
  intros Hm Hflat. split; [|split].
  - intros n H.
    destruct (iterate_ok _ (frontal_area config) (drag_coefficient config) _
                (events config) n (initial_state s) Hm Hflat) as [st Hst].
    unfold flight_passes in H. rewrite Hst in H. discriminate H.
  - intros fuel H.
    apply (simulate_flight_fuel _ (Nat.max fuel cutoff_steps)) in H; [|lia].
    destruct (simulate_flight_total (Nat.max fuel cutoff_steps) config s Hm Hflat)
      as (st & _ & Hrun); [lia|].
    rewrite Hrun in H. discriminate H.
  - intros c Hlen. split.
    + destruct c as [|p [|q rest]]; cbn in *; try exact I. lia.
    + intros t. now apply interp_thrust_short.
Qed.

Lemma no_division_by_zero_inside_the_loop_witness :
  simulate_flight cutoff_steps scenario [] <> Some (Raise ZeroDivisionError).
Proof.
  apply (no_division_by_zero_inside_the_loop scenario []).
  - vm_compute. discriminate.
  - simpl. split; [discriminate | exact I].
Defined.

(** The errors of a pass in binary64: [OverflowError] from the square
    of the velocity, and [ZeroDivisionError] from a mass that is zero or
    from a segment of the thrust curve that holds [t] and has no
    length. *)
Lemma binary64_interp_thrust_raises (c : list (float * float)) (t : float) (e : exn) :
  Binary64.interp_thrust c t = Raise e ->
  e = ZeroDivisionError
  /\ exists i p q,
       c !! i = Some p /\ c !! S i = Some q
       /\ PrimFloat.leb p.1 t = true /\ PrimFloat.leb t q.1 = true
       /\ PrimFloat.eqb (PrimFloat.sub q.1 p.1) 0 = true.
Proof.
  unfold Binary64.interp_thrust. destruct (length c <? 2)%nat; [discriminate|].
  destruct (Binary64.interp_scan c t) as [r|] eqn:Escan.
  - intros ->. revert Escan.
    induction c as [|[t0 th0] [|[t1 th1] rest] IH]; intros H; try discriminate.
    cbn [Binary64.interp_scan] in H.
    destruct (PrimFloat.leb t0 t && PrimFloat.leb t t1) eqn:Etest.
    + injection H as H. unfold Binary64.py_div in H.
      destruct (PrimFloat.eqb (PrimFloat.sub t1 t0) 0) eqn:Ez; [|discriminate].
      injection H as <-. split; [reflexivity|].
      apply andb_true_iff in Etest as [Hlo Hhi].
      exists 0%nat, (t0, th0), (t1, th1). cbn. auto.
    + destruct (IH H) as (He & i & p & q & Hp & Hq & Hrest).
      split; [exact He|]. exists (S i), p, q. auto.
  - destruct (PrimFloat.ltb _ t); discriminate.
Qed.

Remark binary64_pass_raises (mass area drag_coeff : float)
    (thrust_curve : list (float * float)) (t velocity altitude : float) (e : exn) :
  Binary64.loop_body mass area drag_coeff thrust_curve t velocity altitude = Raise e ->
  (e = OverflowError /\ Binary64.py_square velocity = Raise OverflowError)
  \/ (e = ZeroDivisionError
      /\ (PrimFloat.eqb mass 0 = true
          \/ Binary64.interp_thrust thrust_curve t = Raise ZeroDivisionError)).
Proof.
  unfold Binary64.loop_body. intros H.
  destruct (Binary64.interp_thrust thrust_curve t) as [thrust|e'] eqn:Ethrust.
  - cbn [bind] in H.
    destruct (Binary64.py_square velocity) as [square|e'] eqn:Esquare.
    + cbn [bind] in H. right. unfold Binary64.py_div in H.
      destruct (PrimFloat.eqb mass 0); [|discriminate].
      injection H as <-. auto.
    + cbn [bind] in H. injection H as ->. left.
      unfold Binary64.py_square in Esquare.
      destruct (_ && _); [|discriminate]. injection Esquare as <-. auto.
  - cbn [bind] in H. injection H as ->. right.
    destruct (binary64_interp_thrust_raises _ _ _ Ethrust) as (-> & _). auto.
Qed.

(** *** The event flags outlive the run *)

(** What a run that returns has done to the store: it has flagged the
    events it printed, each printed once, and nothing else. *)
Lemma simulate_flight_store (fuel : nat) (config : MissionConfig) (s : store)
    (out : flight_output) :
  simulate_flight fuel config s = Some (Ok out) ->
  NoDup (out_printed out).*2
  /\ forall l, out_store out !! l
               = if bool_decide (l ∈ (out_printed out).*2)
                 then set_triggered <$> s !! l else s !! l.
Proof.
  intros H. apply simulate_flight_returns in H as (st & Hst & ->).
  apply iterate_events in Hst. exact Hst.
Qed.

(** C2 (fails on the code).  [config.events.copy()] copies the list, not
    the dicts in it: the first run of the scripted scenario prints its
    event at the first pass and leaves it flagged in the caller's store;
    a second run of the same configuration, finding the flag, prints no
    event at all. *)
Theorem second_run_fires_nothing (extra : nat) :
  exists out1 out2,
    simulate_flight (cutoff_steps + extra) scripted [deploy] = Some (Ok out1)
    /\ out_printed out1 = [(0 + dt, 0%nat)]
    /\ out_store out1 = [set_triggered deploy]
    /\ out_store out1 <> [deploy]
    /\ simulate_flight (cutoff_steps + extra) scripted (out_store out1) = Some (Ok out2)
    /\ out_printed out2 = [].
Proof.
  assert (Hm : ~ effective_mass scripted == 0) by (vm_compute; discriminate).
  assert (Hflat : no_flat_segment (config_curve scripted))
    by (simpl; split; [discriminate | exact I]).
  assert (Hfuel : (cutoff_steps <= cutoff_steps + extra)%nat) by lia.
  destruct (simulate_flight_total _ scripted [deploy] Hm Hflat Hfuel) as (st & Hst & Hrun1).
  destruct (simulate_flight_total _ scripted [set_triggered deploy] Hm Hflat Hfuel)
    as (st' & Hst' & Hrun2).
  (* the first run: one pass that fires, then quiet passes *)
  assert (H1 : exists st1, flight_passes 1 scripted [deploy] = Ok st1
                           /\ ls_store st1 = [set_triggered deploy]
                           /\ ls_printed st1 = [(0 + dt, 0%nat)]).
  { eexists. split; [vm_compute; reflexivity|]. split; reflexivity. }
  destruct H1 as (st1 & E1 & Hs1 & Hp1).
  pose proof (flight_passes_split 1 (Z.to_nat 6000) scripted [deploy] st1 E1) as Hsplit.
  replace (1 + Z.to_nat 6000)%nat with cutoff_steps in Hsplit
    by (unfold cutoff_steps; lia).
  rewrite Hst in Hsplit. symmetry in Hsplit.
  apply iterate_quiet in Hsplit as [Hs Hp].
  2:{ rewrite Hs1. intros l d Hl Hd. apply list_elem_of_singleton in Hl as ->.
      injection Hd as <-. reflexivity. }
  (* the second run: quiet from the start *)
  apply flight_passes_quiet in Hst' as [Hs' Hp'].
  2:{ intros l d Hl Hd. apply list_elem_of_singleton in Hl as ->.
      injection Hd as <-. reflexivity. }
  exists (output_of st true), (output_of st' true). cbn [out_store out_printed output_of].
  rewrite Hs, Hp, Hs1, Hp1.
  split; [exact Hrun1|]. split; [reflexivity|]. split; [reflexivity|].
  split; [discriminate|]. split; [exact Hrun2 | exact Hp'].
Qed.

(** *** The event evaluator *)




(** *** Drag at rest *)

Lemma drag_term_at_rest (drag_coeff area v sign : Q) :
  v == 0 -> 0.5 * AIR_DENSITY * v ^ 2 * drag_coeff * area * sign == 0.
Proof.
  intros Hv. assert (Hsq : v ^ 2 == 0) by (rewrite Hv; reflexivity).
  rewrite Hsq. ring.
Qed.

(** The acceleration a pass records. *)
Lemma loop_body_acceleration (mass area drag_coeff : Q) (thrust_curve : curve)
    (evs : list loc) (st st' : loop_state) :
  loop_body mass area drag_coeff thrust_curve evs st = Ok st' ->
  exists thrust state,
    interp_thrust thrust_curve (ls_t st) = Ok thrust
    /\ ~ mass == 0
    /\ last (ls_data st') = Some state
    /\ acceleration state
       = (thrust - drag_force drag_coeff area (ls_velocity st) - mass * GRAVITY) / mass
    /\ velocity state = ls_velocity st + acceleration state * dt.
Proof.
  unfold loop_body. intros H.
  destruct (interp_thrust thrust_curve (ls_t st)) as [thrust|]; [|discriminate].
  cbn [bind] in H. unfold py_div in H.
  destruct (Qeq_bool mass 0) eqn:Em; [discriminate|]. cbn [bind] in H.
  match type of H with context [run_events evs ?x _] => set (state := x) in * end.
  destruct (run_events evs state (ls_store st)) as [tr s'].
  injection H as <-. exists thrust, state. cbn [ls_data].
  split; [reflexivity|]. split; [now apply Qeq_bool_false|].
  split; [apply last_snoc|]. split; reflexivity.
Qed.

(** C10.  In a pass that starts at velocity 0 the drag is 0, whichever
    sign the convention gives it, and the acceleration of the pass is
    (thrust - mass g) / mass: so it is for the first pass of every run,
    on the pad. *)
Theorem no_drag_at_rest (mass area drag_coeff : Q) (thrust_curve : curve)
    (evs : list loc) (st : loop_state) :
  ls_velocity st == 0 ->
  drag_force drag_coeff area (ls_velocity st) == 0
  /\ (forall sign, 0.5 * AIR_DENSITY * ls_velocity st ^ 2 * drag_coeff * area * sign == 0)
  /\ (forall st', loop_body mass area drag_coeff thrust_curve evs st = Ok st' ->
        exists thrust state,
          interp_thrust thrust_curve (ls_t st) = Ok thrust
          /\ last (ls_data st') = Some state
          /\ acceleration state == (thrust - mass * GRAVITY) / mass).
Proof.
  intros Hv. split; [|split].
  - unfold drag_force. now apply drag_term_at_rest.
  - intros sign. now apply drag_term_at_rest.
  - intros st' Hbody.
    destruct (loop_body_acceleration _ _ _ _ _ _ _ Hbody)
      as (thrust & state & Hthrust & Hm & Hlast & Hacc & _).
    exists thrust, state. split; [exact Hthrust|]. split; [exact Hlast|].
    rewrite Hacc. unfold drag_force.
    rewrite (drag_term_at_rest drag_coeff area (ls_velocity st) _ Hv).
    field. exact Hm.
Qed.

Lemma no_drag_at_rest_witness :
  ls_velocity (initial_state []) == 0
  /\ drag_force (drag_coefficient scenario) (frontal_area scenario)
       (ls_velocity (initial_state [])) == 0
  /\ exists st' thrust state,
       flight_passes 1 scenario [] = Ok st'
       /\ interp_thrust (config_curve scenario) 0 = Ok thrust
       /\ last (ls_data st') = Some state
       /\ acceleration state
          == (thrust - effective_mass scenario * GRAVITY) / effective_mass scenario.
Proof.
  assert (Hv : ls_velocity (initial_state []) == 0) by reflexivity.
  destruct (no_drag_at_rest (effective_mass scenario) (frontal_area scenario)
              (drag_coefficient scenario) (config_curve scenario) (events scenario)
              (initial_state []) Hv) as (Hdrag & _ & Hacc).
  split; [exact Hv|]. split; [exact Hdrag|].
  destruct (flight_passes 1 scenario []) as [st'|] eqn:E; [|vm_compute in E; discriminate].
  exists st'.
  destruct (Hacc st') as (thrust & state & Hthrust & Hlast & Ha).
  - unfold flight_passes in E. cbn [iterate_body] in E.
    destruct (loop_body _ _ _ _ _ _) as [st1|]; [|discriminate].
    cbn [bind] in E. now injection E as ->.
  - exists thrust, state. auto.
Defined.

(** *** The thrust curve *)

(** C5 as stated fails: before the first control point the thrust is
    that of the first control point. *)
Lemma thrust_before_curve_not_zero :
  (2 <= length [(1, 5); (2, 0)])%nat /\ 0 < 1
  /\ interp_thrust [(1, 5); (2, 0)] 0 = Ok 5 /\ ~ 5 == 0.
Proof.
  split; [apply le_n|]. split; [reflexivity|]. split; [reflexivity|]. discriminate.
Qed.

(** C5 (amended).  On a thrust curve of at least two control points in
    non-decreasing order of time, at a time strictly before the first
    control point, [interp_thrust] returns the thrust of the first
    control point. *)
Theorem thrust_before_first_point (c : curve) (p : control_point) (t : Q) :
  times_nondecreasing c -> (2 <= length c)%nat -> head c = Some p -> t < p.1 ->
  interp_thrust c t = Ok p.2.
Proof. apply interp_thrust_before. Qed.

Lemma thrust_before_first_point_witness :
  times_nondecreasing [(1, 5); (2, 0)] /\ interp_thrust [(1, 5); (2, 0)] 0 = Ok 5.
Proof.
  assert (Hs : times_nondecreasing [(1, 5); (2, 0)]).
  { simpl. split; [discriminate | exact I]. }
  split; [exact Hs|].
  apply (thrust_before_first_point [(1, 5); (2, 0)] (1, 5) 0 Hs).
  - apply le_n.
  - reflexivity.
  - reflexivity.
Defined.

(** C8 as stated fails on the arithmetic of the code.  With T = 12 and
    B = 1.6 the thrust at B / 2 is 5.999999999999999 and not T / 2; and
    at a control point shared by two segments the first segment answers,
    on [(0, 12), (1.6, 0), (2, 0)] at 1.6 with -1.78e-15, where the
    expression of the segment from 1.6 to 2 is 0. *)
Lemma midpoint_thrust_is_rounded :
  (Binary64.interp_thrust [(0, 12); (0x1.999999999999ap+0, 0)]
     (0x1.999999999999ap+0 / 2)
   = Ok 0x1.7ffffffffffffp+2
   /\ PrimFloat.eqb 0x1.7ffffffffffffp+2 (12 / 2) = false)%float
  /\ (Binary64.interp_thrust [(0, 12); (0x1.999999999999ap+0, 0); (2, 0)]
        0x1.999999999999ap+0
      = Ok (-0x1p-49)
      /\ PrimFloat.eqb (-0x1p-49)
           (0 + (0 - 0) * (0x1.999999999999ap+0 - 0x1.999999999999ap+0)
                / (2 - 0x1.999999999999ap+0)) = false)%float.
Proof.
  split; split; vm_compute; reflexivity.
Qed.

(** C8 (amended).  On a thrust curve of strictly increasing times, at a
    time [t] in the segment between two consecutive control points,
    beyond the left end of the segment unless it is the first segment
    of the curve, [interp_thrust] returns what the expression
    [thrust0 + (thrust1 - thrust0) * (t - t0) / (t1 - t0)] evaluates to;
    beyond the last control point it returns 0; the curve from (0, T)
    to (B, 0) has the thrust [T + (0 - T) * (B / 2 - 0) / (B - 0)] at
    time B / 2, which is T / 2 up to the rounding of these operations. *)
Theorem thrust_interpolation :
  (forall (c : curve) (i : nat) (t t0 thrust0 t1 thrust1 : Q),
      times_increasing c ->
      c !! i = Some (t0, thrust0) -> c !! S i = Some (t1, thrust1) ->
      t0 <= t <= t1 -> i = 0%nat \/ t0 < t ->
      interp_thrust c t = Ok (thrust0 + (thrust1 - thrust0) * (t - t0) / (t1 - t0)))
  /\ (forall (c : curve) (p : control_point) (t : Q),
        times_increasing c -> last c = Some p -> p.1 < t ->
        interp_thrust c t = Ok 0)
  /\ (forall T B : Q,
        0 < B ->
        interp_thrust [(0, T); (B, 0)] (B / 2) = Ok (T + (0 - T) * (B / 2 - 0) / (B - 0))).
Proof.
  assert (Hseg : forall (c : curve) (i : nat) (t t0 thrust0 t1 thrust1 : Q),
      times_increasing c ->
      c !! i = Some (t0, thrust0) -> c !! S i = Some (t1, thrust1) ->
      t0 <= t <= t1 -> i = 0%nat \/ t0 < t ->
      interp_thrust c t = Ok (thrust0 + (thrust1 - thrust0) * (t - t0) / (t1 - t0))).
  { intros c i t t0 thrust0 t1 thrust1 Hinc Hi HSi Ht Hfirst. unfold interp_thrust.
    assert (Hlen : (length c <? 2)%nat = false).
    { apply Nat.ltb_ge. apply lookup_lt_Some in HSi. lia. }
    now rewrite Hlen, (interp_scan_first_segment c i t t0 thrust0 t1 thrust1). }
  split; [exact Hseg|]. split.
  - intros c p t Hinc Hlast Ht.
    apply (interp_thrust_after c p t (increasing_nondecreasing c Hinc) Hlast Ht).
  - intros T B HB. apply (Hseg [(0, T); (B, 0)] 0%nat).
    + simpl. split; [exact HB | exact I].
    + reflexivity.
    + reflexivity.
    + split.
      * apply Qle_shift_div_l; lra.
      * apply Qle_shift_div_r; lra.
    + now left.
Qed.

Lemma thrust_interpolation_witness :
  interp_thrust [(0, 12); (1.6, 0)] (1.6 / 2)
  = Ok (12 + (0 - 12) * (1.6 / 2 - 0) / (1.6 - 0))
  /\ interp_thrust [(0, 12); (1.6, 0)] 2 = Ok 0.
Proof.
  destruct thrust_interpolation as (_ & Hafter & Hmid).
  split.
  - apply (Hmid 12 1.6). reflexivity.
  - apply (Hafter [(0, 12); (1.6, 0)] (1.6, 0) 2).
    + simpl. split; [reflexivity | exact I].
    + reflexivity.
    + reflexivity.
Defined.

(** * More of the code *)

(** ** Conditions and the evaluator, continued *)

Lemma check_conditions_app (c1 c2 : list (string * Q)) (state : flight_state) :
  check_conditions (c1 ++ c2) state
  = check_conditions c1 state && check_conditions c2 state.
Proof.
  induction c1 as [|[k v] rest IH]; cbn [check_conditions app andb]; [reflexivity|].
  destruct (condition_fails k v state); [reflexivity | exact IH].
Qed.

(** X3.  A condition is the conjunction of its items whatever their
    order: listing the items of a dict in another order does not change
    [check_conditions], and the items of two dicts put together hold iff
    both dicts hold. *)
Theorem check_conditions_order (c1 c2 : list (string * Q)) (state : flight_state) :
  (c1 ≡ₚ c2 -> check_conditions c1 state = check_conditions c2 state)
  /\ check_conditions (c1 ++ c2) state
     = check_conditions c1 state && check_conditions c2 state.
Proof.
  split; [|apply check_conditions_app].
  intros Hperm. induction Hperm as [|[k v] l l' _ IH|[k v] [k' v'] l|l l' l'' _ IH1 _ IH2].
  - reflexivity.
  - cbn [check_conditions]. now rewrite IH.
  - cbn [check_conditions].
    destruct (condition_fails k v state), (condition_fails k' v' state); reflexivity.
  - now rewrite IH1.
Qed.

Lemma check_conditions_order_witness :
  check_conditions [("altitude_gt"%string, 5); ("time_lt"%string, 2)] aloft
  = check_conditions [("time_lt"%string, 2); ("altitude_gt"%string, 5)] aloft.
Proof.
  apply (check_conditions_order _ _ aloft). apply perm_swap.
Defined.

Lemma run_events_length (evs : list loc) (state : flight_state) (s : store) :
  length (run_events evs state s).2 = length s.
Proof.
  revert s. induction evs as [|ev rest IH]; intros s; [reflexivity|].
  rewrite run_events_cons.
  destruct (s !! ev) as [d|]; [destruct (fires d state)|]; try apply IH.
  cbn [snd]. rewrite IH. apply length_insert.
Qed.

Lemma run_events_sublist (evs : list loc) (state : flight_state) (s : store) :
  sublist (run_events evs state s).1 evs.
Proof.
  revert s. induction evs as [|ev rest IH]; intros s; [constructor|].
  rewrite run_events_cons.
  destruct (s !! ev) as [d|]; [destruct (fires d state)|].
  - cbn [fst]. apply sublist_skip, IH.
  - apply sublist_cons, IH.
  - apply sublist_cons, IH.
Qed.

(** X4.  [run_events] returns the events it fires in the order of the
    event list, and touches nothing but flags: the store keeps its
    size, every dict keeps its time, type and condition, and a flag
    that is set stays set. *)
Theorem run_events_frame (evs : list loc) (state : flight_state) (s : store) :
  sublist (run_events evs state s).1 evs
  /\ length (run_events evs state s).2 = length s
  /\ forall l d, s !! l = Some d ->
       exists d', (run_events evs state s).2 !! l = Some d'
                  /\ ev_time d' = ev_time d /\ ev_type d' = ev_type d
                  /\ ev_condition d' = ev_condition d
                  /\ (ev_triggered d = true -> ev_triggered d' = true).
Proof.
  split; [apply run_events_sublist|]. split; [apply run_events_length|].
  intros l d Hd. destruct (run_events_spec evs state s) as (_ & _ & Hlook).
  rewrite Hlook, Hd. destruct (bool_decide _).
  - exists (set_triggered d). cbn. auto.
  - exists d. auto.
Qed.

Lemma run_events_frame_witness :
  exists d', (run_events [0%nat] aloft [deploy]).2 !! 0%nat = Some d'
             /\ ev_time d' = ev_time deploy /\ ev_type d' = ev_type deploy
             /\ ev_condition d' = ev_condition deploy
             /\ (ev_triggered deploy = true -> ev_triggered d' = true).
Proof.
  apply (run_events_frame [0%nat] aloft [deploy]). reflexivity.
Defined.

(** ** The trajectory *)

Lemma follows_altitude (mass area drag_coeff : Q) (thrust_curve : curve)
    (a b : flight_state) :
  follows mass area drag_coeff thrust_curve a b -> 0 <= altitude b.
Proof.
  intros (thrust & _ & _ & _ & Halt & _). rewrite Halt.
  destruct (Qltb _ 0) eqn:E; qprop; lra.
Qed.

Lemma simulate_flight_first_sample (fuel : nat) (config : MissionConfig)
    (s : store) (out : flight_output) :
  simulate_flight fuel config s = Some (Ok out) ->
  exists a, out_data out !! 0%nat = Some a.
Proof.
  intros Hrun. destruct (simulate_flight_samples _ _ _ _ Hrun) as (_ & Hlen & _).
  destruct (out_data out) as [|a rest]; [|eauto].
  exfalso. unfold cutoff_steps in Hlen. cbn [length] in Hlen. lia.
Qed.

(** X5.  The samples a run returns are linked by the recurrence of the
    loop body: the first sample follows from the rocket at rest on the
    pad and every other sample from the one before it, with the thrust
    and the drag taken at the earlier sample, the velocity advanced by
    the new acceleration and the altitude by the new velocity. *)
Theorem samples_follow_the_recurrence (fuel : nat) (config : MissionConfig)
    (s : store) (out : flight_output) :
  simulate_flight fuel config s = Some (Ok out) ->
  (exists a, out_data out !! 0%nat = Some a
             /\ follows (effective_mass config) (frontal_area config)
                  (drag_coefficient config) (config_curve config) launch_pad a)
  /\ (forall i a b, out_data out !! i = Some a -> out_data out !! S i = Some b ->
        follows (effective_mass config) (frontal_area config)
          (drag_coefficient config) (config_curve config) a b).
Proof.
  intros Hrun. destruct (simulate_flight_samples _ _ _ _ Hrun) as (_ & Hlen & _).
  apply simulate_flight_returns in Hrun as (st & Hst & ->). cbn [out_data output_of] in *.
  apply flight_passes_recurrence in Hst as (_ & Hfirst & Hnext).
  split; [|exact Hnext].
  destruct (ls_data st) as [|a rest] eqn:Ed.
  - exfalso. unfold cutoff_steps in Hlen. cbn [length] in Hlen. lia.
  - exists a. split; [reflexivity|]. now apply Hfirst.
Qed.

Lemma samples_follow_the_recurrence_witness :
  exists out a,
    simulate_flight cutoff_steps scenario [] = Some (Ok out)
    /\ out_data out !! 0%nat = Some a
    /\ follows (effective_mass scenario) (frontal_area scenario)
         (drag_coefficient scenario) (config_curve scenario) launch_pad a.
Proof.
  destruct (simulate_flight_total cutoff_steps scenario []) as (st & _ & Hrun).
  - vm_compute. discriminate.
  - simpl. split; [discriminate | exact I].
  - apply le_n.
  - destruct (samples_follow_the_recurrence cutoff_steps scenario [] _ Hrun)
      as ((a & Ha & Hf) & _).
    exists (output_of st true), a. split; [exact Hrun|]. split; [exact Ha | exact Hf].
Defined.

(** X6.  No sample of a run has a negative altitude. *)
Theorem altitude_never_negative (fuel : nat) (config : MissionConfig) (s : store)
    (out : flight_output) (state : flight_state) :
  simulate_flight fuel config s = Some (Ok out) -> state ∈ out_data out ->
  0 <= altitude state.
Proof.
  intros Hrun Hin.
  apply simulate_flight_returns in Hrun as (st & Hst & ->). cbn [out_data output_of] in *.
  apply flight_passes_recurrence in Hst as (_ & Hfirst & Hnext).
  apply list_elem_of_lookup in Hin as [i Hi]. destruct i as [|i].
  - eapply follows_altitude. apply Hfirst. exact Hi.
  - destruct (ls_data st !! i) as [a|] eqn:Ha.
    + eapply follows_altitude. apply (Hnext i a state Ha Hi).
    + apply lookup_ge_None in Ha. apply lookup_lt_Some in Hi. lia.
Qed.

Lemma altitude_never_negative_witness :
  exists out state,
    simulate_flight cutoff_steps scenario [] = Some (Ok out)
    /\ state ∈ out_data out /\ 0 <= altitude state.
Proof.
  destruct (simulate_flight_total cutoff_steps scenario []) as (st & _ & Hrun).
  - vm_compute. discriminate.
  - simpl. split; [discriminate | exact I].
  - apply le_n.
  - destruct (simulate_flight_first_sample _ _ _ _ Hrun) as (a & Ha).
    apply list_elem_of_lookup_2 in Ha.
    exists (output_of st true), a. split; [exact Hrun|]. split; [exact Ha|].
    apply (altitude_never_negative cutoff_steps scenario [] _ a Hrun Ha).
Defined.

(** One pass on two event lists and two stores. *)
Lemma loop_body_same_flight (mass area drag_coeff : Q) (thrust_curve : curve)
    (evs1 evs2 : list loc) (st1 st2 : loop_state) :
  same_flight st1 st2 ->
  match loop_body mass area drag_coeff thrust_curve evs1 st1,
        loop_body mass area drag_coeff thrust_curve evs2 st2 with
  | Ok a, Ok b => same_flight a b
  | Raise e1, Raise e2 => e1 = e2
  | _, _ => False
  end.
Proof.
  intros (Ht & Hv & Hh & Hd). unfold loop_body. rewrite <- Ht, <- Hv, <- Hh, <- Hd.
  destruct (interp_thrust thrust_curve (ls_t st1)) as [thrust|e]; cbn [bind]; [|reflexivity].
  destruct (py_div _ mass) as [accel|e]; cbn [bind]; [|reflexivity].
  destruct (run_events evs1 _ (ls_store st1)) as [tr1 s1].
  destruct (run_events evs2 _ (ls_store st2)) as [tr2 s2].
  repeat split.
Qed.

Lemma flight_loop_same_flight (mass area drag_coeff : Q) (thrust_curve : curve)
    (evs1 evs2 : list loc) (fuel : nat) (st1 st2 : loop_state) :
  same_flight st1 st2 ->
  match flight_loop mass area drag_coeff thrust_curve evs1 fuel st1,
        flight_loop mass area drag_coeff thrust_curve evs2 fuel st2 with
  | Some (Ok (a, b1)), Some (Ok (b, b2)) => same_flight a b /\ b1 = b2
  | Some (Raise e1), Some (Raise e2) => e1 = e2
  | None, None => True
  | _, _ => False
  end.
Proof.
  revert st1 st2. induction fuel as [|fuel IH]; intros st1 st2 Hsame; [exact I|].
  cbn [flight_loop].
  pose proof (loop_body_same_flight mass area drag_coeff thrust_curve evs1 evs2
                st1 st2 Hsame) as Hbody.
  destruct Hsame as (Ht & Hv & Hh & Hd). rewrite <- Hh.
  destruct (Qle_bool 0 (ls_altitude st1)).
  - destruct (loop_body _ _ _ _ evs1 st1) as [a|e1], (loop_body _ _ _ _ evs2 st2) as [b|e2];
      try contradiction; [|exact Hbody].
    pose proof Hbody as (Hta & _). rewrite <- Hta.
    destruct (Qltb 300 (ls_t a)); [split; [exact Hbody | reflexivity]|].
    apply IH. exact Hbody.
  - repeat split; assumption.
Qed.

(** X7.  The events do not steer the rocket: on the same vehicle and
    motor, whatever the event list and the flags in the store, a run
    returns the same samples, or raises the same error. *)
Theorem events_do_not_steer (fuel : nat) (config : MissionConfig)
    (evs : list loc) (s s' : store) :
  match simulate_flight fuel config s,
        simulate_flight fuel (with_events config evs) s' with
  | Some (Ok out1), Some (Ok out2) =>
      out_data out1 = out_data out2 /\ out_timeout out1 = out_timeout out2
  | Some (Raise e1), Some (Raise e2) => e1 = e2
  | None, None => True
  | _, _ => False
  end.
Proof.
  unfold simulate_flight.
  change (effective_mass (with_events config evs)) with (effective_mass config).
  change (frontal_area (with_events config evs)) with (frontal_area config).
  change (config_curve (with_events config evs)) with (config_curve config).
  cbn [with_events drag_coefficient events].
  pose proof (flight_loop_same_flight (effective_mass config) (frontal_area config)
                (drag_coefficient config) (config_curve config)
                (events config) evs fuel (initial_state s) (initial_state s')) as H.
  destruct (flight_loop _ _ _ _ (events config) fuel _) as [[[a b1]|e1]|],
           (flight_loop _ _ _ _ evs fuel _) as [[[b b2]|e2]|];
    try (apply H; repeat split); try exact I.
  destruct H as ((_ & _ & _ & Hd) & Hb); [repeat split|]. cbn. auto.
Qed.

(** ** A rocket that stays on the pad *)

Lemma frontal_area_nonneg (config : MissionConfig) : 0 <= frontal_area config.
Proof.
  unfold frontal_area. cbv zeta.
  set (r := rocket_diameter config / 2). change (r ^ 2) with (r * r).
  assert (0 <= r * r) by nra.
  apply Qmult_le_0_compat; [discriminate | assumption].
Qed.

Lemma drag_force_descending (drag_coeff area v : Q) :
  v <= 0 -> drag_force drag_coeff area v == - (drag_factor drag_coeff area * (v * v)).
Proof.
  intros Hv. unfold drag_force, drag_factor.
  apply Qltb_false in Hv. rewrite Hv. change (v ^ 2) with (v * v). ring.
Qed.

(** One step of a rocket that is not rising, under a thrust below its
    weight. *)
Lemma pad_step (m k T v a L : Q) :
  0 < m -> 0 <= k -> 0 <= T <= m * GRAVITY -> tame_drag m k L ->
  v <= 0 -> (k == 0 \/ - L <= v) ->
  a * m == T + k * (v * v) - m * GRAVITY ->
  v + a * dt <= 0 /\ (k == 0 \/ - L <= v + a * dt).
Proof.
  unfold tame_drag. intros Hm Hk [HT0 HT1] Htame Hv Hlow Ha.
  assert (Hg : 0 < GRAVITY) by reflexivity.
  assert (Hdt : 0 < dt) by reflexivity.
  assert (Hup : m * (v + a * dt) <= 0).
  { assert (Hdrag : dt * (k * (v * v)) <= - (m * v)).
    { destruct Hlow as [Hk0|Hlow]; [|destruct Htame as [Hk0|(HL & HL2 & HLdt)]].
      - assert (k * (v * v) == 0) by (rewrite Hk0; ring). nra.
      - assert (k * (v * v) == 0) by (rewrite Hk0; ring). nra.
      - assert (0 <= (- v) * (m + k * v * dt)).
        { apply Qmult_le_0_compat; [lra|].
          assert (0 <= k * dt * (v + L))
            by (apply Qmult_le_0_compat; [apply Qmult_le_0_compat|]; lra).
          assert (0 <= k * L * dt)
            by (apply Qmult_le_0_compat; [apply Qmult_le_0_compat|]; lra).
          lra. }
        lra. }
    assert (0 <= dt * (m * GRAVITY - T)) by (apply Qmult_le_0_compat; lra).
    assert (E : m * (v + a * dt) == m * v + dt * (a * m)) by ring.
    rewrite E, Ha. lra. }
  split; [nra|].
  destruct Hlow as [Hk0|Hlow]; [now left|].
  destruct Htame as [Hk0|(HL & HL2 & HLdt)]; [now left|]. right.
  assert (Hlo : 0 <= m * (v + a * dt + L)).
  { assert (0 <= (v + L) * (m - dt * k * (L - v))).
    { apply Qmult_le_0_compat; [lra|].
      assert (0 <= dt * k * (v + L))
        by (apply Qmult_le_0_compat; [apply Qmult_le_0_compat|]; lra).
      assert (0 <= k * L * dt)
        by (apply Qmult_le_0_compat; [apply Qmult_le_0_compat|]; lra).
      lra. }
    assert (0 <= dt * T) by (apply Qmult_le_0_compat; lra).
    assert (0 <= dt * (k * (L * L) - m * GRAVITY)) by (apply Qmult_le_0_compat; lra).
    assert (E : m * (v + a * dt + L) == m * v + dt * (a * m) + m * L) by ring.
    rewrite E, Ha. lra. }
  nra.
Qed.

Lemma flight_passes_grounded (n : nat) (config : MissionConfig) (s : store)
    (st : loop_state) (L : Q) :
  0 < effective_mass config -> 0 <= drag_coefficient config ->
  (forall t T, interp_thrust (config_curve config) t = Ok T ->
               0 <= T <= effective_mass config * GRAVITY) ->
  tame_drag (effective_mass config)
    (drag_factor (drag_coefficient config) (frontal_area config)) L ->
  flight_passes n config s = Ok st ->
  forall state, state ∈ ls_data st -> altitude state == 0 /\ velocity state <= 0.
Proof.
  intros Hm Hcd Hthrust Htame H.
  set (k := drag_factor (drag_coefficient config) (frontal_area config)) in *.
  assert (Hk : 0 <= k).
  { unfold k, drag_factor.
    apply Qmult_le_0_compat; [|apply frontal_area_nonneg].
    apply Qmult_le_0_compat; [discriminate | exact Hcd]. }
  set (P := fun (_ : nat) (st : loop_state) =>
              ls_altitude st == 0 /\ ls_velocity st <= 0
              /\ (k == 0 \/ - L <= ls_velocity st)
              /\ forall state, state ∈ ls_data st ->
                               altitude state == 0 /\ velocity state <= 0).
  enough (Hstep : forall j st st', P j st ->
            loop_body (effective_mass config) (frontal_area config)
              (drag_coefficient config) (config_curve config) (events config) st = Ok st' ->
            P (S j) st').
  { unfold flight_passes in H.
    apply (iterate_invariant _ _ _ _ _ P Hstep n 0%nat (initial_state s) st) in H.
    - apply H.
    - unfold P. cbn [initial_state ls_altitude ls_velocity ls_data].
      split; [reflexivity|]. split; [discriminate|]. split.
      + destruct Htame as [Hk0|(HL & _)]; [now left | right; lra].
      + intros state Hin. inversion Hin. }
  intros j st0 st' (Hh & Hv & Hlow & Hdata) Hbody. unfold P.
  destruct (loop_body_sample _ _ _ _ _ _ _ Hbody)
    as (T & state & HT & Hm0 & Hacc & Hvel & Halt & _ & Hd' & _ & Hv' & Hh').
  assert (Ha : acceleration state * effective_mass config
               == T + k * (ls_velocity st0 * ls_velocity st0)
                  - effective_mass config * GRAVITY).
  { rewrite Hacc, (drag_force_descending _ _ _ Hv). fold k. field. exact Hm0. }
  destruct (pad_step _ _ _ _ _ L Hm Hk (Hthrust _ _ HT) Htame Hv Hlow Ha) as [Hv1 Hlow1].
  rewrite <- Hvel in Hv1, Hlow1.
  assert (Hh1 : altitude state == 0).
  { rewrite Halt. destruct (Qltb _ 0) eqn:E; [reflexivity|]. qprop.
    assert (velocity state * dt <= 0) by (unfold dt; lra). lra. }
  rewrite Hh', Hv', Hd'. split; [exact Hh1|]. split; [exact Hv1|]. split; [exact Hlow1|].
  intros x Hx. apply elem_of_app in Hx as [Hx|Hx]; [now apply Hdata|].
  apply list_elem_of_singleton in Hx as ->. auto.
Qed.

(** X8.  A rocket whose thrust never exceeds its weight (and is never
    negative) does not leave the pad: under a tame drag, every sample of
    its run has altitude 0 and a velocity that is not positive.  So it
    is for [MissionConfig()] as [__init__] fills it, whose "Custom" motor
    has no thrust curve. *)
Theorem thrust_below_weight_stays_on_the_pad (fuel : nat) (config : MissionConfig)
    (s : store) (out : flight_output) (L : Q) :
  0 < effective_mass config -> 0 <= drag_coefficient config ->
  (forall t T, interp_thrust (config_curve config) t = Ok T ->
               0 <= T <= effective_mass config * GRAVITY) ->
  tame_drag (effective_mass config)
    (drag_factor (drag_coefficient config) (frontal_area config)) L ->
  simulate_flight fuel config s = Some (Ok out) ->
  forall state, state ∈ out_data out -> altitude state == 0 /\ velocity state <= 0.
Proof.
  intros Hm Hcd Hthrust Htame Hrun.
  apply simulate_flight_returns in Hrun as (st & Hst & ->). cbn [out_data output_of].
  exact (flight_passes_grounded _ config s st L Hm Hcd Hthrust Htame Hst).
Qed.

Lemma thrust_below_weight_stays_on_the_pad_witness :
  exists out,
    simulate_flight cutoff_steps default_config [] = Some (Ok out)
    /\ forall state, state ∈ out_data out -> altitude state == 0 /\ velocity state <= 0.
Proof.
  destruct (simulate_flight_total cutoff_steps default_config []) as (st & _ & Hrun).
  - vm_compute. discriminate.
  - exact I.
  - apply le_n.
  - exists (output_of st true). split; [exact Hrun|].
    apply (thrust_below_weight_stays_on_the_pad cutoff_steps default_config [] _ 100).
    + reflexivity.
    + discriminate.
    + intros t T HT. injection HT as <-. split; [apply Qle_refl | discriminate].
    + right. split; [discriminate|]. split; vm_compute; discriminate.
    + exact Hrun.
Defined.

(** ** When events are printed *)

Lemma fires_due (d : event) (state : flight_state) :
  fires d state = negb (ev_triggered d) && due d state.
Proof. unfold fires, due. now rewrite andb_assoc. Qed.

Lemma first_due_exists (d : event) (data : list flight_state) :
  (exists state, state ∈ data /\ due d state = true) ->
  exists t, first_due d data t.
Proof.
  induction data as [|x rest IH]; intros (state & Hin & Hdue); [inversion Hin|].
  destruct (due d x) eqn:Ex.
  - exists (time x), 0%nat, x. repeat split; try assumption. intros j y Hj. lia.
  - apply elem_of_cons in Hin as [->|Hin]; [congruence|].
    destruct IH as (t & k & y & Hk & Ht & Hy & Hmin); [eauto|].
    exists t, (S k), y. repeat split; try assumption.
    intros j z Hj Hz. destruct j as [|j].
    + injection Hz as <-. exact Ex.
    + apply (Hmin j z); [lia | exact Hz].
Qed.

Lemma first_due_unique (d : event) (data : list flight_state) (t t' : Q) :
  first_due d data t -> first_due d data t' -> t = t'.
Proof.
  intros (k & x & Hk & Ht & Hx & Hmin) (k' & x' & Hk' & Ht' & Hx' & Hmin').
  destruct (lt_eq_lt_dec k k') as [[Hlt|Heq]|Hlt].
  - rewrite (Hmin' k x Hlt Hk) in Hx. discriminate.
  - subst k'. rewrite Hk in Hk'. injection Hk' as <-. congruence.
  - rewrite (Hmin k' x' Hlt Hk') in Hx'. discriminate.
Qed.

Lemma first_due_snoc_old (d : event) (data : list flight_state) (x : flight_state) (t : Q) :
  first_due d data t -> first_due d (data ++ [x]) t.
Proof.
  intros (k & y & Hk & Ht & Hy & Hmin). exists k, y.
  pose proof (lookup_lt_Some _ _ _ Hk) as Hlen.
  repeat split; try assumption.
  - now apply lookup_app_l_Some.
  - intros j z Hj Hz. apply (Hmin j z Hj).
    rewrite lookup_app_l in Hz by lia. exact Hz.
Qed.

Lemma first_due_snoc_new (d : event) (data : list flight_state) (x : flight_state) :
  (forall y, y ∈ data -> due d y = false) -> due d x = true ->
  first_due d (data ++ [x]) (time x).
Proof.
  intros Hnone Hx. exists (length data), x. repeat split; try assumption.
  - rewrite lookup_app_r by lia. now rewrite Nat.sub_diag.
  - intros j z Hj Hz. rewrite lookup_app_l in Hz by lia.
    apply Hnone. eapply list_elem_of_lookup_2; eauto.
Qed.

Section Reach.

Variables (mass area drag_coeff : Q) (thrust_curve : curve) (evs : list loc).
Variable s : store.

(** Induction on the passes made from the initial state, each state
    known to be reached. *)
Lemma iterate_reach (P : loop_state -> Prop) :
  P (initial_state s) ->
  (forall k st st',
      iterate_body mass area drag_coeff thrust_curve evs k (initial_state s) = Ok st ->
      P st ->
      loop_body mass area drag_coeff thrust_curve evs st = Ok st' -> P st') ->
  forall n st,
    iterate_body mass area drag_coeff thrust_curve evs n (initial_state s) = Ok st ->
    P st.
Proof.
  intros Hinit Hstep n st H.
  set (R := fun (k : nat) (st : loop_state) =>
              iterate_body mass area drag_coeff thrust_curve evs k (initial_state s) = Ok st
              /\ P st).
  enough (HR : R (0 + n)%nat st) by apply HR.
  apply (iterate_invariant mass area drag_coeff thrust_curve evs R) with (st := initial_state s).
  - intros k st0 st1 [Hreach HP] Hbody. split; [|eapply Hstep; eauto].
    replace (S k) with (k + 1)%nat by lia.
    rewrite iterate_add, Hreach. cbn [bind iterate_body]. now rewrite Hbody.
  - split; [reflexivity | exact Hinit].
  - exact H.
Qed.

(** Every printed line names a listed event that was not flagged when
    the run started, at the time of a recorded sample; the lines are in
    the order of time. *)
Lemma iterate_printed (n : nat) (st : loop_state) :
  iterate_body mass area drag_coeff thrust_curve evs n (initial_state s) = Ok st ->
  (forall t l, (t, l) ∈ ls_printed st ->
     l ∈ evs /\ (exists d, s !! l = Some d /\ ev_triggered d = false)
     /\ (exists state, state ∈ ls_data st /\ time state = t) /\ t <= ls_t st)
  /\ (forall i j p q, (i < j)%nat ->
        ls_printed st !! i = Some p -> ls_printed st !! j = Some q -> p.1 <= q.1).
Proof.
  revert n st. apply iterate_reach.
  - split.
    + intros t l Hin. inversion Hin.
    + intros i j p q _ Hp. inversion Hp.
  - intros k st st' Hreach (Hsound & Hsorted) Hbody.
    destruct (loop_body_inv _ _ _ _ _ st st' Hbody)
      as (state & Hd & Ht & Hst & _ & _ & Hs' & Hp').
    destruct (run_events_spec evs state (ls_store st)) as (Hin & _ & _).
    destruct (iterate_events _ _ _ _ _ s k st Hreach) as (_ & Hstore).
    set (tr := (run_events evs state (ls_store st)).1) in *.
    assert (Hnew : forall t l, (t, l) ∈ map (fun ev => (ls_t st', ev)) tr ->
                               t = ls_t st' /\ l ∈ tr).
    { intros t l Hl. apply list_elem_of_fmap in Hl as (ev & Heq & Hev).
      injection Heq as -> ->. auto. }
    assert (Hle : ls_t st <= ls_t st') by (rewrite Ht; unfold dt; lra).
    split.
    + intros t l Hl. rewrite Hp' in Hl. apply elem_of_app in Hl as [Hl|Hl].
      * destruct (Hsound t l Hl) as (He & Hd0 & (x & Hx & Hxt) & Htle).
        split; [exact He|]. split; [exact Hd0|]. split; [|lra].
        exists x. split; [|exact Hxt]. rewrite Hd. apply elem_of_app. now left.
      * apply Hnew in Hl as [-> Hl]. apply Hin in Hl as (He & d' & Hd' & Hf).
        split; [exact He|]. split; [|split; [|apply Qle_refl]].
        -- rewrite Hstore in Hd'. destruct (bool_decide _).
           ++ destruct (s !! l) as [d0|]; [|discriminate]. injection Hd' as <-. discriminate.
           ++ exists d'. split; [exact Hd'|].
              apply fires_true in Hf. apply Hf.
        -- exists state. split; [|exact Hst]. rewrite Hd. apply elem_of_app. right. left.
    + intros i j p q Hij Hp Hq. rewrite Hp' in Hp, Hq.
      apply lookup_app_Some in Hq as [Hq|[Hge Hq]].
      * apply (Hsorted i j p q Hij); [|exact Hq].
        rewrite lookup_app_l in Hp; [exact Hp|]. apply lookup_lt_Some in Hq. lia.
      * assert (Hq1 : q.1 = ls_t st').
        { apply list_elem_of_lookup_2 in Hq. destruct q as [tq lq].
          apply Hnew in Hq as [-> _]. reflexivity. }
        rewrite Hq1. apply lookup_app_Some in Hp as [Hp|[_ Hp]].
        -- apply list_elem_of_lookup_2 in Hp. destruct p as [tp lp].
           destruct (Hsound tp lp Hp) as (_ & _ & _ & Htle). cbn. lra.
        -- apply list_elem_of_lookup_2 in Hp. destruct p as [tp lp].
           apply Hnew in Hp as [-> _]. apply Qle_refl.
Qed.

(** An event that was not flagged when the run started is printed at
    the first sample at which it is due. *)
Lemma iterate_first_due (l : loc) (d : event) (n : nat) (st : loop_state) :
  l ∈ evs -> s !! l = Some d -> ev_triggered d = false ->
  iterate_body mass area drag_coeff thrust_curve evs n (initial_state s) = Ok st ->
  (l ∉ (ls_printed st).*2 -> forall state, state ∈ ls_data st -> due d state = false)
  /\ (forall t, (t, l) ∈ ls_printed st -> first_due d (ls_data st) t).
Proof.
  intros Hl Hs Hd0. revert n st. apply iterate_reach.
  - split.
    + intros _ state Hin. inversion Hin.
    + intros t Hin. inversion Hin.
  - intros k st st' Hreach (Hnone & Hfirst) Hbody.
    destruct (loop_body_inv _ _ _ _ _ st st' Hbody)
      as (state & Hd & Ht & Hst & _ & _ & Hs' & Hp').
    destruct (run_events_spec evs state (ls_store st)) as (Hin & _ & _).
    destruct (iterate_events _ _ _ _ _ s k st Hreach) as (_ & Hstore).
    set (tr := (run_events evs state (ls_store st)).1) in *.
    assert (Hp2 : (ls_printed st').*2 = (ls_printed st).*2 ++ tr).
    { rewrite Hp', fmap_app. f_equal. rewrite <- list_fmap_compose.
      apply list_fmap_id. }
    assert (Hnew : forall t, (t, l) ∈ map (fun ev => (ls_t st', ev)) tr ->
                             t = time state /\ l ∈ tr).
    { intros t Hin'. apply list_elem_of_fmap in Hin' as (ev & Heq & Hev).
      injection Heq as -> ->. auto. }
    assert (Hfire : l ∈ tr <-> ((l ∉ (ls_printed st).*2) /\ due d state = true)).
    { rewrite Hin, Hstore, Hs. split.
      - intros (_ & d' & Hd' & Hf). destruct (decide (l ∈ (ls_printed st).*2)) as [Ho|Ho].
        + rewrite (bool_decide_eq_true_2 _ Ho) in Hd'. injection Hd' as <-. discriminate.
        + rewrite (bool_decide_eq_false_2 _ Ho) in Hd'. injection Hd' as <-.
          rewrite fires_due, Hd0 in Hf. auto.
      - intros (Ho & Hdue). split; [exact Hl|]. exists d.
        rewrite (bool_decide_eq_false_2 _ Ho). split; [reflexivity|].
        now rewrite fires_due, Hd0. }
    rewrite Hd. split.
    + intros Hnot state0 Hin0. rewrite Hp2, elem_of_app in Hnot.
      apply elem_of_app in Hin0 as [Hin0|Hin0].
      * apply Hnone; [tauto | exact Hin0].
      * apply list_elem_of_singleton in Hin0 as ->.
        destruct (due d state) eqn:Edue; [|reflexivity].
        exfalso. apply Hnot. right. apply Hfire. tauto.
    + intros t Hin0. rewrite Hp' in Hin0. apply elem_of_app in Hin0 as [Hin0|Hin0].
      * apply first_due_snoc_old. now apply Hfirst.
      * apply Hnew in Hin0 as [-> Hin0]. apply Hfire in Hin0 as [Ho Hdue].
        apply first_due_snoc_new; [|exact Hdue].
        intros y Hy. now apply Hnone.
Qed.

End Reach.

(** X9.  An event that is listed and not yet flagged when a run starts
    is printed exactly at the first sample at which it is due (its time
    has come and its condition holds of that sample): with the time of
    that sample, and only then. *)
Theorem event_printed_at_first_due_sample (fuel : nat) (config : MissionConfig)
    (s : store) (out : flight_output) (l : loc) (d : event) :
  simulate_flight fuel config s = Some (Ok out) ->
  l ∈ events config -> s !! l = Some d -> ev_triggered d = false ->
  forall t, (t, l) ∈ out_printed out <-> first_due d (out_data out) t.
Proof.
  intros Hrun Hl Hs Hd0 t.
  apply simulate_flight_returns in Hrun as (st & Hst & ->).
  cbn [out_printed out_data output_of]. unfold flight_passes in Hst.
  destruct (iterate_first_due _ _ _ _ _ s l d _ st Hl Hs Hd0 Hst) as (Hnone & Hfirst).
  split; [apply Hfirst|]. intros Hdue.
  destruct (decide (l ∈ (ls_printed st).*2)) as [Hin|Hnot].
  - apply list_elem_of_fmap in Hin as ([t' l'] & Heq & Hin). cbn in Heq. subst l'.
    rewrite (first_due_unique d _ t t' Hdue (Hfirst t' Hin)). exact Hin.
  - exfalso. destruct Hdue as (k & x & Hk & _ & Hx & _).
    rewrite (Hnone Hnot x) in Hx; [discriminate|].
    eapply list_elem_of_lookup_2; eauto.
Qed.

Lemma event_printed_at_first_due_sample_witness :
  exists out t,
    simulate_flight cutoff_steps scripted [deploy] = Some (Ok out)
    /\ ((t, 0%nat) ∈ out_printed out <-> first_due deploy (out_data out) t).
Proof.
  destruct (simulate_flight_total cutoff_steps scripted [deploy]) as (st & _ & Hrun).
  - vm_compute. discriminate.
  - simpl. split; [discriminate | exact I].
  - apply le_n.
  - exists (output_of st true), dt. split; [exact Hrun|].
    apply (event_printed_at_first_due_sample cutoff_steps scripted [deploy] _ 0%nat deploy Hrun).
    + left.
    + reflexivity.
    + reflexivity.
Defined.

(** In the exact model, where the samples of a run that returns reach
    300.05: an event without condition is printed exactly if its time is
    at most 300.05. *)
Lemma unconditional_event (fuel : nat) (config : MissionConfig)
    (s : store) (out : flight_output) (l : loc) (d : event) :
  simulate_flight fuel config s = Some (Ok out) ->
  l ∈ events config -> s !! l = Some d -> ev_triggered d = false ->
  ev_condition d = [] ->
  ((exists t, (t, l) ∈ out_printed out) <-> ev_time d <= 300.05)
  /\ (forall t, (t, l) ∈ out_printed out ->
        ev_time d <= t /\ (t == dt \/ t - dt < ev_time d)).
Proof.
  intros Hrun Hl Hs Hd0 Hcond.
  destruct (simulate_flight_samples _ _ _ _ Hrun) as (_ & Hlen & Htimes).
  destruct (last_sample_time _ _ _ _ Hrun) as (z & Hz & Htz).
  apply simulate_flight_returns in Hrun as (st & Hst & ->).
  cbn [out_printed out_data output_of] in *. unfold flight_passes in Hst.
  destruct (iterate_first_due _ _ _ _ _ s l d _ st Hl Hs Hd0 Hst) as (Hnone & Hfirst).
  assert (Hdue : forall x, due d x = true <-> ev_time d <= time x).
  { intros x. unfold due. rewrite Hcond. cbn [check_conditions].
    rewrite andb_true_r. apply Qle_bool_iff. }
  assert (Hndue : forall x, due d x = false -> time x < ev_time d).
  { intros x Hx. unfold due in Hx. rewrite Hcond in Hx. cbn [check_conditions] in Hx.
    rewrite andb_true_r in Hx. now apply Qle_bool_false. }
  split; [split|].
  - intros (t & Hin). destruct (Hfirst t Hin) as (k & x & Hk & <- & Hx & _).
    apply Hdue in Hx. rewrite (Htimes k x Hk) in Hx.
    assert (Hk' : steps_time (S k) <= 300.05).
    { apply lookup_lt_Some in Hk. rewrite Hlen in Hk.
      assert (~ 300 < steps_time k) by (rewrite steps_time_cutoff; lia).
      rewrite steps_time_S. unfold dt. lra. }
    lra.
  - intros Hle. destruct (decide (l ∈ (ls_printed st).*2)) as [Hin|Hnot].
    + apply list_elem_of_fmap in Hin as ([t' l'] & Heq & Hin). cbn in Heq. subst l'. eauto.
    + exfalso. assert (Hzin : z ∈ ls_data st).
      { rewrite last_lookup in Hz. eapply list_elem_of_lookup_2; eauto. }
      apply (Hnone Hnot) in Hzin. apply Hndue in Hzin. lra.
  - intros t Hin. destruct (Hfirst t Hin) as (k & x & Hk & <- & Hx & Hmin).
    apply Hdue in Hx. split; [exact Hx|].
    pose proof (Htimes k x Hk) as Htx. rewrite steps_time_S in Htx.
    destruct k as [|k].
    + left. rewrite Htx. unfold steps_time. change (inject_Z (Z.of_nat 0)) with 0. lra.
    + right. destruct (ls_data st !! k) as [y|] eqn:Hy.
      2:{ apply lookup_ge_None in Hy. apply lookup_lt_Some in Hk. lia. }
      pose proof (Hndue y (Hmin k y ltac:(lia) Hy)) as Hlt.
      rewrite (Htimes k y Hy) in Hlt. lra.
Qed.

(** X10.  An event without condition that is listed and not yet flagged
    is printed in a run that returns exactly if the run records a sample
    whose time has reached the time of the event.  It is then printed
    with the time of the first such sample: a recorded sample time that
    has reached the time of the event, while no sample recorded with an
    earlier time has. *)
Theorem unconditional_event_timing (fuel : nat) (config : MissionConfig)
    (s : store) (out : flight_output) (l : loc) (d : event) :
  simulate_flight fuel config s = Some (Ok out) ->
  l ∈ events config -> s !! l = Some d -> ev_triggered d = false ->
  ev_condition d = [] ->
  ((exists t, (t, l) ∈ out_printed out)
   <-> exists state, state ∈ out_data out /\ ev_time d <= time state)
  /\ (forall t, (t, l) ∈ out_printed out ->
        ev_time d <= t
        /\ (exists state, state ∈ out_data out /\ time state = t)
        /\ forall state, state ∈ out_data out -> time state < t ->
                         time state < ev_time d).
Proof.
  intros Hrun Hl Hs Hd0 Hcond.
  destruct (simulate_flight_samples _ _ _ _ Hrun) as (_ & _ & Htimes).
  apply simulate_flight_returns in Hrun as (st & Hst & ->).
  cbn [out_printed out_data output_of] in *. unfold flight_passes in Hst.
  destruct (iterate_first_due _ _ _ _ _ s l d _ st Hl Hs Hd0 Hst) as (Hnone & Hfirst).
  assert (Hdue : forall x, due d x = true <-> ev_time d <= time x).
  { intros x. unfold due. rewrite Hcond. cbn [check_conditions].
    rewrite andb_true_r. apply Qle_bool_iff. }
  assert (Hndue : forall x, due d x = false -> time x < ev_time d).
  { intros x Hx. unfold due in Hx. rewrite Hcond in Hx. cbn [check_conditions] in Hx.
    rewrite andb_true_r in Hx. now apply Qle_bool_false. }
  split; [split|].
  - intros (t & Hin). destruct (Hfirst t Hin) as (k & x & Hk & _ & Hx & _).
    exists x. split; [eapply list_elem_of_lookup_2; eauto | now apply Hdue].
  - intros (x & Hx & Hreached).
    destruct (decide (l ∈ (ls_printed st).*2)) as [Hin|Hnot].
    + apply list_elem_of_fmap in Hin as ([t' l'] & Heq & Hin). cbn in Heq. subst l'. eauto.
    + exfalso. apply (Hnone Hnot) in Hx. apply Hndue in Hx. lra.
  - intros t Hin. destruct (Hfirst t Hin) as (k & x & Hk & <- & Hx & Hmin).
    apply Hdue in Hx. split; [exact Hx|]. split.
    + exists x. split; [eapply list_elem_of_lookup_2; eauto | reflexivity].
    + intros y Hy Hearlier. apply list_elem_of_lookup in Hy as [j Hj].
      apply Hndue, (Hmin j y); [|exact Hj].
      destruct (Nat.lt_ge_cases j k) as [Hlt|Hge]; [exact Hlt|]. exfalso.
      rewrite (Htimes j y Hj), (Htimes k x Hk) in Hearlier.
      unfold steps_time, dt in Hearlier.
      assert (inject_Z (Z.of_nat (S k)) <= inject_Z (Z.of_nat (S j)))
        by (rewrite <- Zle_Qle; lia).
      lra.
Qed.

Lemma unconditional_event_timing_witness :
  exists out,
    simulate_flight cutoff_steps scripted [deploy] = Some (Ok out)
    /\ ((exists t, (t, 0%nat) ∈ out_printed out)
        <-> exists state, state ∈ out_data out /\ ev_time deploy <= time state).
Proof.
  destruct (simulate_flight_total cutoff_steps scripted [deploy]) as (st & _ & Hrun).
  - vm_compute. discriminate.
  - simpl. split; [discriminate | exact I].
  - apply le_n.
  - exists (output_of st true). split; [exact Hrun|].
    apply (unconditional_event_timing cutoff_steps scripted [deploy] _ 0%nat deploy Hrun).
    + left.
    + reflexivity.
    + reflexivity.
    + reflexivity.
Defined.

(** ** What a run leaves in the store *)

Lemma lookup_same_length {A : Type} (l1 l2 : list A) :
  (forall i, is_Some (l1 !! i) <-> is_Some (l2 !! i)) -> length l1 = length l2.
Proof.
  intros H.
  destruct (lt_eq_lt_dec (length l1) (length l2)) as [[Hlt|Heq]|Hlt]; [|exact Heq|].
  - apply lookup_lt_is_Some, H, lookup_lt_is_Some in Hlt. lia.
  - apply lookup_lt_is_Some, H, lookup_lt_is_Some in Hlt. lia.
Qed.

(** X11.  A run leaves the store as it found it but for the flags of
    the events it printed: the store keeps its size, the dicts of the
    printed events are the old ones with the flag set, every other dict
    is untouched; and only listed events that were not flagged are
    printed, each with the time of a recorded sample. *)
Theorem run_flags_what_it_prints (fuel : nat) (config : MissionConfig)
    (s : store) (out : flight_output) :
  simulate_flight fuel config s = Some (Ok out) ->
  length (out_store out) = length s
  /\ (forall l, out_store out !! l
                = if bool_decide (l ∈ (out_printed out).*2)
                  then set_triggered <$> s !! l else s !! l)
  /\ (forall t l, (t, l) ∈ out_printed out ->
        l ∈ events config
        /\ (exists d, s !! l = Some d /\ ev_triggered d = false)
        /\ exists state, state ∈ out_data out /\ time state = t).
Proof.
  intros Hrun. destruct (simulate_flight_store _ _ _ _ Hrun) as (_ & Hstore).
  apply simulate_flight_returns in Hrun as (st & Hst & ->).
  cbn [out_printed out_data out_store output_of] in *. unfold flight_passes in Hst.
  destruct (iterate_printed _ _ _ _ _ s _ st Hst) as (Hsound & _).
  split; [|split; [exact Hstore|]].
  - apply lookup_same_length. intros l. rewrite Hstore.
    destruct (bool_decide _); [|reflexivity]. apply fmap_is_Some.
  - intros t l Hin. destruct (Hsound t l Hin) as (He & Hd & Hx & _). auto.
Qed.

Lemma run_flags_what_it_prints_witness :
  exists out,
    simulate_flight cutoff_steps scripted [deploy] = Some (Ok out)
    /\ length (out_store out) = length [deploy].
Proof.
  destruct (simulate_flight_total cutoff_steps scripted [deploy]) as (st & _ & Hrun).
  - vm_compute. discriminate.
  - simpl. split; [discriminate | exact I].
  - apply le_n.
  - exists (output_of st true). split; [exact Hrun|].
    apply (run_flags_what_it_prints cutoff_steps scripted [deploy] _ Hrun).
Defined.

(** X12.  The event lines of a run are printed in the order of time:
    of two lines the earlier printed has the earlier or the same time. *)
Theorem printed_in_order_of_time (fuel : nat) (config : MissionConfig)
    (s : store) (out : flight_output) (i j : nat) (p q : Q * loc) :
  simulate_flight fuel config s = Some (Ok out) -> (i < j)%nat ->
  out_printed out !! i = Some p -> out_printed out !! j = Some q ->
  p.1 <= q.1.
Proof.
  intros Hrun Hij Hp Hq.
  apply simulate_flight_returns in Hrun as (st & Hst & ->).
  cbn [out_printed output_of] in *. unfold flight_passes in Hst.
  destruct (iterate_printed _ _ _ _ _ s _ st Hst) as (_ & Hsorted).
  exact (Hsorted i j p q Hij Hp Hq).
Qed.

Lemma iterate_printed_prefix (mass area drag_coeff : Q) (thrust_curve : curve)
    (evs : list loc) (n : nat) (st st' : loop_state) :
  iterate_body mass area drag_coeff thrust_curve evs n st = Ok st' ->
  exists more, ls_printed st' = ls_printed st ++ more.
Proof.
  revert st. induction n as [|n IH]; intros st H; cbn [iterate_body] in H.
  - injection H as <-. exists []. now rewrite app_nil_r.
  - destruct (loop_body _ _ _ _ _ st) as [st1|] eqn:E; [|discriminate]. cbn [bind] in H.
    destruct (loop_body_inv _ _ _ _ _ st st1 E) as (state & _ & _ & _ & _ & _ & _ & Hp).
    destruct (IH st1 H) as [more Hmore].
    eexists. rewrite Hmore, Hp, <- app_assoc. reflexivity.
Qed.

Lemma printed_in_order_of_time_witness :
  exists out p q,
    simulate_flight cutoff_steps (with_events scripted [0%nat; 1%nat]) [deploy; deploy]
    = Some (Ok out)
    /\ out_printed out !! 0%nat = Some p /\ out_printed out !! 1%nat = Some q
    /\ p.1 <= q.1.
Proof.
  destruct (simulate_flight_total cutoff_steps (with_events scripted [0%nat; 1%nat])
              [deploy; deploy]) as (st & Hst & Hrun).
  - vm_compute. discriminate.
  - simpl. split; [discriminate | exact I].
  - apply le_n.
  - assert (H1 : exists st1,
               flight_passes 1 (with_events scripted [0%nat; 1%nat]) [deploy; deploy] = Ok st1
               /\ ls_printed st1 = [(0 + dt, 0%nat); (0 + dt, 1%nat)]).
    { eexists. split; [vm_compute; reflexivity | reflexivity]. }
    destruct H1 as (st1 & E1 & Hp1).
    pose proof (flight_passes_split 1 (Z.to_nat 6000) _ _ st1 E1) as Hsplit.
    replace (1 + Z.to_nat 6000)%nat with cutoff_steps in Hsplit
      by (unfold cutoff_steps; lia).
    rewrite Hst in Hsplit. symmetry in Hsplit.
    apply iterate_printed_prefix in Hsplit as [more Hmore]. rewrite Hp1 in Hmore.
    assert (H0 : out_printed (output_of st true) !! 0%nat = Some (0 + dt, 0%nat))
      by (cbn [out_printed output_of]; rewrite Hmore; reflexivity).
    assert (H1 : out_printed (output_of st true) !! 1%nat = Some (0 + dt, 1%nat))
      by (cbn [out_printed output_of]; rewrite Hmore; reflexivity).
    exists (output_of st true), (0 + dt, 0%nat), (0 + dt, 1%nat).
    split; [exact Hrun|]. split; [exact H0|]. split; [exact H1|].
    exact (printed_in_order_of_time _ _ _ _ 0%nat 1%nat _ _ Hrun (le_n 1) H0 H1).
Defined.

(** X13.  What a first run printed, a second run on the store the first
    one left behind never prints again, whatever the configuration of
    the second run. *)
Theorem printed_once_across_runs (fuel fuel' : nat) (config config' : MissionConfig)
    (s : store) (out out' : flight_output) (l : loc) :
  simulate_flight fuel config s = Some (Ok out) ->
  simulate_flight fuel' config' (out_store out) = Some (Ok out') ->
  l ∈ (out_printed out).*2 -> l ∉ (out_printed out').*2.
Proof.
  intros Hrun Hrun' Hin Hin'.
  destruct (simulate_flight_store _ _ _ _ Hrun) as (_ & Hstore).
  apply simulate_flight_returns in Hrun' as (st' & Hst' & ->).
  cbn [out_printed output_of] in *. unfold flight_passes in Hst'.
  destruct (iterate_printed _ _ _ _ _ _ _ st' Hst') as (Hsound & _).
  apply list_elem_of_fmap in Hin' as ([t' l'] & Heq & Hin'). cbn in Heq. subst l'.
  destruct (Hsound t' l Hin') as (_ & (d & Hd & Hflag) & _).
  rewrite Hstore, (bool_decide_eq_true_2 _ Hin) in Hd.
  destruct (s !! l) as [d0|]; [|discriminate]. injection Hd as <-. discriminate.
Qed.

Lemma printed_once_across_runs_witness :
  exists out out',
    simulate_flight cutoff_steps scripted [deploy] = Some (Ok out)
    /\ simulate_flight cutoff_steps scripted (out_store out) = Some (Ok out')
    /\ 0%nat ∈ (out_printed out).*2 /\ 0%nat ∉ (out_printed out').*2.
Proof.
  assert (Hm : ~ effective_mass scripted == 0) by (vm_compute; discriminate).
  assert (Hflat : no_flat_segment (config_curve scripted))
    by (simpl; split; [discriminate | exact I]).
  destruct (simulate_flight_total cutoff_steps scripted [deploy] Hm Hflat (le_n _))
    as (st & _ & Hrun).
  destruct (simulate_flight_total cutoff_steps scripted (out_store (output_of st true))
              Hm Hflat (le_n _)) as (st' & _ & Hrun').
  assert (Hin : 0%nat ∈ (out_printed (output_of st true)).*2).
  { destruct (unconditional_event cutoff_steps scripted [deploy] _ 0%nat deploy Hrun)
      as ((_ & Hpr) & _); [left | reflexivity..|].
    destruct Hpr as (t & Ht); [discriminate|].
    apply list_elem_of_fmap. exists (t, 0%nat). auto. }
  exists (output_of st true), (output_of st' true).
  split; [exact Hrun|]. split; [exact Hrun'|]. split; [exact Hin|].
  exact (printed_once_across_runs _ _ _ _ _ _ _ 0%nat Hrun Hrun' Hin).
Defined.

(** ** The motor typed in, and the choices of the menus *)

Lemma two_point_curve_flat (thrust0 burn_time : Q) :
  burn_time == 0 ->
  interp_thrust [(0, thrust0); (burn_time, 0)] 0 = Raise ZeroDivisionError.
Proof.
  intros Hb. unfold interp_thrust. cbn [length Nat.ltb Nat.leb interp_scan].
  assert (Hle : Qle_bool 0 burn_time = true) by (qprop; lra).
  rewrite Hle. cbn [Qle_bool andb]. change (Qle_bool 0 0) with true. cbn [andb].
  rewrite py_div_zero by lra. reflexivity.
Qed.

(** X15.  A burn time of 0 typed into [plan_mission] gives a thrust
    curve with both control points at time 0, on which every run raises
    [ZeroDivisionError] in its first pass; a negative burn time gives a
    motor without thrust from time 0 on. *)
Theorem custom_motor_without_burn (fuel : nat) (config : MissionConfig) (s : store)
    (total_impulse burn_time avg_thrust motor_mass : Q) :
  motor_params config = custom_motor total_impulse burn_time avg_thrust motor_mass ->
  (burn_time == 0 ->
   simulate_flight (S fuel) config s = Some (Raise ZeroDivisionError))
  /\ (burn_time < 0 ->
      forall t, 0 <= t -> interp_thrust (config_curve config) t = Ok 0).
Proof.
  intros Hmp. unfold simulate_flight, config_curve. rewrite Hmp.
  cbn [custom_motor mp_thrust_curve default from_option id]. split.
  - intros Hb. cbn [flight_loop initial_state ls_altitude].
    change (Qle_bool 0 0) with true. cbv iota.
    unfold loop_body. cbn [initial_state ls_t].
    rewrite (two_point_curve_flat _ _ Hb). reflexivity.
  - intros Hb t Ht. unfold interp_thrust. cbn [length Nat.ltb Nat.leb interp_scan].
    assert (Hout : Qle_bool t burn_time = false) by (qprop; lra).
    rewrite Hout, andb_false_r. cbn [List.last fst].
    assert (Hafter : Qltb burn_time t = true) by (qprop; lra).
    now rewrite Hafter.
Qed.

Lemma custom_motor_without_burn_witness :
  simulate_flight 1
    {| name := "typed"; rocket_mass := 0.5; rocket_diameter := 0.05;
       drag_coefficient := 0.75; motor_params := custom_motor 12 0 7.5 0.024;
       payload_mass := 0; events := [] |} []
  = Some (Raise ZeroDivisionError).
Proof.
  eapply custom_motor_without_burn; reflexivity.
Defined.

Lemma py_getitem_spec {A : Type} (l : list A) (i : Z) :
  let n := Z.of_nat (length l) in
  ((0 <= i < n)%Z -> py_getitem l i = l !! Z.to_nat i)
  /\ ((- n <= i < 0)%Z -> py_getitem l i = l !! Z.to_nat (n + i))
  /\ ((i < - n \/ n <= i)%Z -> py_getitem l i = None).
Proof.
  intros n. unfold py_getitem. fold n. split; [|split].
  - intros Hi. destruct (Z.leb_spec 0 i); [reflexivity | lia].
  - intros Hi. destruct (Z.leb_spec 0 i); [lia|].
    destruct (Z.leb_spec (- n) i); [reflexivity | lia].
  - intros Hi. destruct (Z.leb_spec 0 i).
    + apply lookup_ge_None. lia.
    + destruct (Z.leb_spec (- n) i); [lia | reflexivity].
Qed.

(** X16.  The motor choice of [plan_mission] always yields an entry of
    [MOTOR_PRESETS]: 1 and -2 select "Estes D12", 2 and -1 select
    "Estes E9", and everything else (3, 0, a number out of range, no
    number at all) selects the "Custom" motor, which has neither mass
    nor thrust curve. *)
Theorem motor_choice (choice : option Z) :
  choose_motor choice ∈ MOTOR_PRESETS
  /\ (choice = Some 1%Z \/ choice = Some (-2)%Z ->
      (choose_motor choice).1 = "Estes D12"%string)
  /\ (choice = Some 2%Z \/ choice = Some (-1)%Z ->
      (choose_motor choice).1 = "Estes E9"%string)
  /\ (choice <> Some 1%Z -> choice <> Some (-2)%Z ->
      choice <> Some 2%Z -> choice <> Some (-1)%Z ->
      choose_motor choice
      = ("Custom"%string, {| mp_mass := None; mp_thrust_curve := None |})).
Proof.
  assert (Hcustom : ("Custom"%string, {| mp_mass := None; mp_thrust_curve := None |})
                    ∈ MOTOR_PRESETS) by (right; right; left).
  assert (Hout : forall c, (c < -2 \/ 3 < c)%Z ->
            choose_motor (Some c)
            = ("Custom"%string, {| mp_mass := None; mp_thrust_curve := None |})).
  { intros c Hc. unfold choose_motor.
    destruct (py_getitem_spec MOTOR_PRESETS.*1 (c - 1)) as (_ & _ & Hnone).
    rewrite Hnone; [reflexivity|]. cbn. lia. }
  assert (Habsurd : forall (c a b : Z) (P : Prop),
            c <> a -> c <> b -> Some c = Some a \/ Some c = Some b -> P).
  { intros c a b P Ha Hb [H|H]; injection H; contradiction. }
  destruct choice as [c|].
  - destruct (Z_lt_le_dec c (-2)) as [Hlo|Hlo]; [|destruct (Z_lt_le_dec 3 c) as [Hhi|Hhi]].
    + rewrite (Hout c) by lia. split; [exact Hcustom|].
      split; [apply Habsurd; lia|]. split; [apply Habsurd; lia | reflexivity].
    + rewrite (Hout c) by lia. split; [exact Hcustom|].
      split; [apply Habsurd; lia|]. split; [apply Habsurd; lia | reflexivity].
    + assert (Hc : (c = -2 \/ c = -1 \/ c = 0 \/ c = 1 \/ c = 2 \/ c = 3)%Z) by lia.
      destruct Hc as [-> | [-> | [-> | [-> | [-> | ->]]]]];
        (set (r := choose_motor _); vm_compute in r; subst r);
        (split; [unfold MOTOR_PRESETS; repeat first [left | right]|]);
        (split; [first [intros _; reflexivity | apply Habsurd; lia]|]);
        (split; [first [intros _; reflexivity | apply Habsurd; lia]|]);
        intros H1 H2 H3 H4; first [reflexivity | congruence].
  - split; [exact Hcustom|].
    split; [intros [H|H]; discriminate H|]. split; [intros [H|H]; discriminate H | reflexivity].
Qed.

Lemma motor_choice_witness :
  (choose_motor (Some (-1)%Z)).1 = "Estes E9"%string
  /\ choose_motor (Some 0%Z)
     = ("Custom"%string, {| mp_mass := None; mp_thrust_curve := None |}).
Proof.
  split.
  - apply (motor_choice (Some (-1)%Z)). now right.
  - apply (motor_choice (Some 0%Z)); discriminate.
Defined.

(** ** How a run can fail *)

Lemma interp_scan_raise (c : curve) (t : Q) (e : exn) :
  interp_scan c t = Some (Raise e) ->
  exists i p q, c !! i = Some p /\ c !! S i = Some q /\ p.1 == t /\ q.1 == t.
Proof.
  induction c as [|[t0 th0] [|[t1 th1] rest] IH]; intros H; try discriminate.
  cbn [interp_scan] in H.
  destruct (Qle_bool t0 t && Qle_bool t t1) eqn:Etest.
  - injection H as H. unfold py_div in H.
    destruct (Qeq_bool (t1 - t0) 0) eqn:Ez; [|discriminate]. qprop.
    exists 0%nat, (t0, th0), (t1, th1). cbn. repeat split; lra.
  - destruct (IH H) as (i & p & q & Hp & Hq & Hpt & Hqt).
    exists (S i), p, q. auto.
Qed.

(** X18.  [interp_thrust] raises only at a time at which two
    consecutive control points both lie: on every other curve and at
    every other time it returns a thrust. *)
Theorem thrust_raises_only_on_a_flat_segment (c : curve) (t : Q) (e : exn) :
  interp_thrust c t = Raise e ->
  e = ZeroDivisionError
  /\ exists i p q, c !! i = Some p /\ c !! S i = Some q /\ p.1 == t /\ q.1 == t.
Proof.
  intros H. split; [exact (interp_thrust_raises c t e H)|]. unfold interp_thrust in H.
  destruct (length c <? 2)%nat; [discriminate|].
  destruct (interp_scan c t) as [r|] eqn:Escan.
  - subst r. eapply interp_scan_raise; eauto.
  - destruct (Qltb _ t); discriminate.
Qed.

Lemma thrust_raises_only_on_a_flat_segment_witness :
  exists i p q, [(0, 5); (0, 3)] !! i = Some p /\ [(0, 5); (0, 3)] !! S i = Some q
                /\ p.1 == 0 /\ q.1 == 0.
Proof.
  apply (thrust_raises_only_on_a_flat_segment [(0, 5); (0, 3)] 0 ZeroDivisionError).
  reflexivity.
Defined.

Lemma loop_body_raise (mass area drag_coeff : Q) (thrust_curve : curve)
    (evs : list loc) (st : loop_state) (e : exn) :
  loop_body mass area drag_coeff thrust_curve evs st = Raise e ->
  mass == 0 \/ interp_thrust thrust_curve (ls_t st) = Raise e.
Proof.
  unfold loop_body. intros H.
  destruct (interp_thrust thrust_curve (ls_t st)) as [thrust|e']; cbn [bind] in H.
  - left. unfold py_div in H. destruct (Qeq_bool mass 0) eqn:Em; [now qprop|].
    cbn [bind] in H. destruct (run_events _ _ _). discriminate.
  - right. now injection H as ->.
Qed.

(** A pass that raises follows passes that did not. *)
Lemma flight_passes_raise (n : nat) (config : MissionConfig) (s : store) (e : exn) :
  flight_passes n config s = Raise e ->
  effective_mass config == 0
  \/ exists k st, (k < n)%nat /\ flight_passes k config s = Ok st
                  /\ interp_thrust (config_curve config) (ls_t st) = Raise e.
Proof.
  unfold flight_passes. induction n as [|n IH]; intros H; [discriminate|].
  replace (S n) with (n + 1)%nat in H by lia. rewrite iterate_add in H.
  destruct (iterate_body _ _ _ _ _ n _) as [st|e'] eqn:En; cbn [bind iterate_body] in H.
  - destruct (loop_body _ _ _ _ _ st) as [st'|e'] eqn:Eb; [discriminate|].
    cbn [bind] in H. injection H as ->.
    apply loop_body_raise in Eb as [Hm|Hraise]; [now left|]. right.
    exists n, st. auto.
  - destruct (IH H) as [Hm|(k & st & Hk & Hst & Hraise)]; [now left|]. right.
    exists k, st. split; [lia | auto].
Qed.

(** X19.  A run raises [ZeroDivisionError] only for one of two reasons:
    the effective mass is 0, or, after some passes, the loop reads the
    thrust curve at a time at which two consecutive control points both
    lie. *)
Theorem run_raises_for_two_reasons (fuel : nat) (config : MissionConfig) (s : store) :
  simulate_flight fuel config s = Some (Raise ZeroDivisionError) ->
  effective_mass config == 0
  \/ exists k st i p q,
       flight_passes k config s = Ok st
       /\ config_curve config !! i = Some p /\ config_curve config !! S i = Some q
       /\ p.1 == ls_t st /\ q.1 == ls_t st.
Proof.
  intros H.
  apply (simulate_flight_fuel _ (Nat.max fuel cutoff_steps)) in H; [|lia].
  rewrite simulate_flight_run in H by lia.
  destruct (flight_passes cutoff_steps config s) as [st|e'] eqn:E; [discriminate|].
  apply flight_passes_raise in E as [Hm|(k & st & _ & Hst & Hraise)]; [now left|]. right.
  assert (Hflat : exists i p q, config_curve config !! i = Some p
                                 /\ config_curve config !! S i = Some q
                                 /\ p.1 == ls_t st /\ q.1 == ls_t st).
  { unfold interp_thrust in Hraise.
    destruct (length (config_curve config) <? 2)%nat; [discriminate|].
    destruct (interp_scan (config_curve config) (ls_t st)) as [r|] eqn:Escan.
    - subst r. eapply interp_scan_raise; eauto.
    - destruct (Qltb _ (ls_t st)); discriminate. }
  destruct Hflat as (i & p & q & Hp & Hq & Hpt & Hqt).
  exists k, st, i, p, q. auto.
Qed.

Lemma run_raises_for_two_reasons_witness :
  effective_mass stuttering == 0
  \/ exists k st i p q,
       flight_passes k stuttering [] = Ok st
       /\ config_curve stuttering !! i = Some p /\ config_curve stuttering !! S i = Some q
       /\ p.1 == ls_t st /\ q.1 == ls_t st.
Proof.
  apply (run_raises_for_two_reasons 1 stuttering []). reflexivity.
Defined.
